(** * ical-email-notifier: the expansion and notification pipeline of main.py

    A shallow embedding of [fix_datetime], [get_calendar_events],
    [send_mail_for_event] and [run_task], with the properties of the
    pipeline proved (or refuted) on it.

    Everything main.py calls but does not define is an oracle gathered in
    the record [env]: the wall clock, the HTTP fetch, the calendar
    libraries, the mail transport and the json module.  The program's
    own state is the record [world]: the ledger file, how often the
    clock and the mail transport were used, and the trace of the effects
    performed so far. *)

From Stdlib Require Import ZArith List String Ascii Bool Arith Lia.
Import ListNotations.

Local Open Scope string_scope.
Local Open Scope list_scope.

(** ** Exceptions and results *)

Inductive exn : Type :=
| ValueError        (* fix_datetime, line 60 *)
| AttributeError    (* [.dt] or [.isoformat()] on a value that lacks it *)
| FetchError        (* requests.get / raise_for_status, lines 65-66 *)
| CalendarError     (* Calendar.from_ical / recurring_ical_events, lines 67-70 *)
| DispatchError.    (* raised by send_mail_for_event outside its try block *)

Inductive result (A : Type) : Type :=
| Ok (a : A)
| Raise (e : exn).

Arguments Ok {A} a.
Arguments Raise {A} e.

(** ** Temporal values

    The program observes a [datetime.datetime] through [timestamp()] and
    [isoformat()] only, and a [datetime.date] through
    [datetime.combine(d, time.min)] and [isoformat()].  A value is
    modelled by these observations.  Timestamps are integers, in
    microseconds (the resolution of [datetime]); the float that Python
    returns orders them the same way. *)

Record datetime : Type := mk_datetime {
  timestamp : Z;
  datetime_isoformat : string
}.

Record date : Type := mk_date {
  combine_min : datetime;        (* datetime.combine(d, datetime.time.min) *)
  date_isoformat : string
}.

(** What [.dt] of a calendar property can hold. *)
Inductive temporal : Type :=
| TDateTime (d : datetime)
| TDate (d : date)
| TOther.                        (* a timedelta, a time, a period, ... *)

(** main.py, lines 54-60.  [datetime] is tested first: in Python it is a
    subclass of [date]. *)
Definition fix_datetime (dt : temporal) : result datetime :=
  match dt with
  | TDateTime d => Ok d
  | TDate d => Ok (combine_min d)
  | TOther => Raise ValueError
  end.

(** [x.isoformat()], line 145. *)
Definition isoformat (dt : temporal) : result string :=
  match dt with
  | TDateTime d => Ok (datetime_isoformat d)
  | TDate d => Ok (date_isoformat d)
  | TOther => Raise AttributeError
  end.

Definition microsecond : Z := 1.
Definition second : Z := 1000000 * microsecond.
Definition minutes (n : Z) : Z := n * 60 * second.
Definition hours (n : Z) : Z := n * 60 * minutes 1.
Definition days (n : Z) : Z := n * 24 * hours 1.

(** main.py, lines 24-25. *)
Definition NEXT_HOURS : Z := 24.

(** ** Calendar components and event instances *)

(** A component as [recurring_ical_events] yields it: its [name] and
    what [component.get(key)] returns ([None] for an absent property;
    for DTSTART and DTEND the [.dt] of the property). *)
Record component : Type := mk_component {
  name : string;
  get_dtstart : option temporal;
  get_dtend : option temporal;
  get_summary : option string;
  get_description : option string;
  get_location : option string
}.

(** The dict built at lines 86-92. *)
Record event : Type := mk_event {
  summary : string;
  dtstart : temporal;
  dtend : temporal;
  description : string;
  location : string
}.

(** [str(component.get('summary'))]: the text of an absent property is
    the word None. *)
Definition str_of (v : option string) : string :=
  match v with
  | Some s => s
  | None => "None"
  end.

(** [str(component.get(key, ''))]. *)
Definition str_or_empty (v : option string) : string :=
  match v with
  | Some s => s
  | None => EmptyString
  end.

(** [component.get(key).dt]: an absent property is [None], which has no
    attribute [dt]. *)
Definition dt_of (v : option temporal) : result temporal :=
  match v with
  | Some t => Ok t
  | None => Raise AttributeError
  end.

(** ** The ledger: a Python dict from summary to ISO text

    A dict keeps its keys in insertion order, and [json.dump] writes them
    in that order, so the ledger is an association list; assigning to a
    key that is present replaces its value in place. *)

Definition dict : Type := list (string * string).

Fixpoint dict_get (k : string) (d : dict) : option string :=
  match d with
  | [] => None
  | (k', v) :: rest => if String.eqb k k' then Some v else dict_get k rest
  end.

(** [k in d] *)
Definition dict_mem (k : string) (d : dict) : bool :=
  match dict_get k d with
  | Some _ => true
  | None => false
  end.

(** [d[k] = v] *)
Fixpoint dict_set (k v : string) (d : dict) : dict :=
  match d with
  | [] => [(k, v)]
  | (k', v') :: rest =>
      if String.eqb k k' then (k, v) :: rest
      else (k', v') :: dict_set k v rest
  end.

(** Number of entries whose key is [k]. *)
Definition dict_count (k : string) (d : dict) : nat :=
  List.length (filter (fun kv => String.eqb k (fst kv)) d).

(** ** The outside world *)

(** What one call of [send_mail_for_event] does (lines 150-194): the
    statements before the [try] (template loading and rendering, the
    attachment) may raise; inside the [try] the transport either
    delivers ([True]) or fails ([False]). *)
Inductive outcome : Type :=
| Sent
| Failed
| Crashed.

(** Lines 65-66: [requests.get] and [raise_for_status] either raise or
    give the body of the response. *)
Inductive fetched : Type :=
| FetchRaises
| FetchBody (content : string).

(** The document [Calendar.from_ical] builds: its components, as the
    feed defines them (recurring ones not yet expanded). *)
Inductive calendar : Type :=
| Calendar (subcomponents : list component).

Record env : Type := mk_env {
  (** the [n]-th call of [datetime.datetime.now()], as a timestamp *)
  clock : nat -> Z;
  (** lines 65-66 *)
  requests_get : fetched;
  (** [Calendar.from_ical(content)], line 67; [None] when it raises *)
  from_ical : string -> option calendar;
  (** [recurring_ical_events.of(cal).between(a, b)], lines 69-70; [None]
      when it raises *)
  between : calendar -> Z -> Z -> option (list component);
  (** the [n]-th call of [send_mail_for_event] *)
  smtp : nat -> event -> outcome;
  (** [json.load]: [None] is [JSONDecodeError] *)
  json_load : string -> option dict;
  (** [json.dump] *)
  json_dump : dict -> string
}.

(** Effects of a run that the properties speak about. *)
Inductive effect : Type :=
| HttpGet                               (* line 65 *)
| ReadLedger                            (* open(SENT_EMAIL_LOG, 'r'), line 108 *)
| MakeDirs                              (* line 115 *)
| WriteLedger (d : dict)                (* open(.., 'w') and json.dump, lines 117-118, 147-148 *)
| Dispatch (e : event) (r : outcome).   (* one call of send_mail_for_event *)

Record world : Type := mk_world {
  ticks : nat;                    (* calls of datetime.now() so far *)
  mails : nat;                    (* calls of send_mail_for_event so far *)
  ledger_file : option string;    (* text of ./data/sent_emails.json, None if absent *)
  trace : list effect             (* oldest first *)
}.

(** The world at the start of a run: the clock was read [t] times and
    [send_mail_for_event] called [m] times by earlier runs, the ledger
    file is [f], and the trace of this run is empty. *)
Definition fresh (t m : nat) (f : option string) : world :=
  {| ticks := t; mails := m; ledger_file := f; trace := [] |}.

(** ** A state and exception monad *)

Definition M (A : Type) : Type := world -> result A * world.

Definition ret {A : Type} (a : A) : M A := fun w => (Ok a, w).

Definition raise {A : Type} (e : exn) : M A := fun w => (Raise e, w).

Definition bind {A B : Type} (m : M A) (k : A -> M B) : M B :=
  fun w =>
    match m w with
    | (Ok a, w') => k a w'
    | (Raise e, w') => (Raise e, w')
    end.

Definition lift {A : Type} (r : result A) : M A := fun w => (r, w).

Notation "x <- m ;; k" := (bind m (fun x => k))
  (at level 61, m at next level, right associativity).
Notation "m ;;; k" := (bind m (fun _ => k))
  (at level 61, right associativity).

(** The world after one more effect, and after one more clock reading. *)
Definition log_effect (ef : effect) (w : world) : world :=
  {| ticks := ticks w; mails := mails w; ledger_file := ledger_file w;
     trace := trace w ++ [ef] |}.

Definition tick (w : world) : world :=
  {| ticks := S (ticks w); mails := mails w; ledger_file := ledger_file w;
     trace := trace w |}.

Definition perform (ef : effect) : M unit := fun w => (Ok tt, log_effect ef w).

(** ** The program *)

Section Program.

Variable E : env.

(** [datetime.datetime.now()], read as a timestamp. *)
Definition now : M Z := fun w => (Ok (clock E (ticks w)), tick w).

(** The body of the [try] at lines 76-92 for one component: [Some e]
    when an instance is appended, [None] when the component is not a
    VEVENT or the instance lies in the past ([continue], line 84). *)
Definition vevent_instance (c : component) : M (option event) :=
  if String.eqb (name c) "VEVENT" then
    dtstart_raw <- lift (dt_of (get_dtstart c)) ;;
    dtstart_dt <- lift (fix_datetime dtstart_raw) ;;
    let start_unix := timestamp dtstart_dt in
    t <- now ;;
    if (start_unix <? t)%Z then ret None
    else
      dtstart' <- lift (dt_of (get_dtstart c)) ;;
      dtend' <- lift (dt_of (get_dtend c)) ;;
      ret (Some {| summary := str_of (get_summary c);
                   dtstart := dtstart';
                   dtend := dtend';
                   description := str_or_empty (get_description c);
                   location := str_or_empty (get_location c) |})
  else ret None.

(** The loop of lines 74-95: [except Exception] logs and continues. *)
Fixpoint expand_loop (cs : list component) (events : list event)
  : M (list event) :=
  match cs with
  | [] => ret events
  | c :: rest =>
      fun w =>
        match vevent_instance c w with
        | (Ok (Some e), w') => expand_loop rest (events ++ [e]) w'
        | (Ok None, w') => expand_loop rest events w'
        | (Raise _, w') => expand_loop rest events w'
        end
  end.

(** main.py, lines 63-96. *)
Definition get_calendar_events : M (list event) :=
  perform HttpGet ;;;
  match requests_get E with
  | FetchRaises => raise FetchError
  | FetchBody content =>
      match from_ical E content with
      | None => raise CalendarError
      | Some cal =>
          t0 <- now ;;
          t1 <- now ;;
          match between E cal t0 (t1 + days 30)%Z with
          | None => raise CalendarError
          | Some recurring_events => expand_loop recurring_events []
          end
      end
  end.

(** main.py, lines 150-194.  The keys the function adds to the event
    dict (name, start_time, end_time) are read by the template only. *)
Definition send_mail_for_event (e : event) : M bool :=
  fun w =>
    let r := smtp E (mails w) e in
    let w' := {| ticks := ticks w; mails := S (mails w);
                 ledger_file := ledger_file w;
                 trace := trace w ++ [Dispatch e r] |} in
    match r with
    | Sent => (Ok true, w')
    | Failed => (Ok false, w')
    | Crashed => (Raise DispatchError, w')
    end.

(** [with open(SENT_EMAIL_LOG, 'w') as f: json.dump(d, f)] *)
Definition write_sent_emails (d : dict) : M unit :=
  fun w => (Ok tt, {| ticks := ticks w; mails := mails w;
                      ledger_file := Some (json_dump E d);
                      trace := trace w ++ [WriteLedger d] |}).

(** Lines 107-118 of [run_task]: the ledger is read; a missing or
    undecodable file gives the empty dict, and a missing one is
    created. *)
Definition load_sent_emails : M dict :=
  perform ReadLedger ;;;
  fun w =>
    match ledger_file w with
    | Some text =>
        match json_load E text with
        | Some sent_emails => (Ok sent_emails, w)
        | None => (Ok [], w)                       (* JSONDecodeError *)
        end
    | None =>                                      (* FileNotFoundError *)
        (perform MakeDirs ;;; write_sent_emails [] ;;; ret []) w
    end.

(** The body of the [try] at lines 126-128: is the event kept? *)
Definition within_next_hours (e : event) : M bool :=
  start_dt <- lift (fix_datetime (dtstart e)) ;;
  let start_unix := timestamp start_dt in
  t <- now ;;
  ret (start_unix <? t + hours NEXT_HOURS)%Z.

(** The loop of lines 124-131. *)
Fixpoint upcoming_loop (events upcoming_events : list event)
  : M (list event) :=
  match events with
  | [] => ret upcoming_events
  | e :: rest =>
      fun w =>
        match within_next_hours e w with
        | (Ok true, w') => upcoming_loop rest (upcoming_events ++ [e]) w'
        | (Ok false, w') => upcoming_loop rest upcoming_events w'
        | (Raise _, w') => upcoming_loop rest upcoming_events w'
        end
  end.

(** Line 137. *)
Definition new_events_of (upcoming_events : list event) (sent_emails : dict)
  : list event :=
  filter (fun e => negb (dict_mem (summary e) sent_emails)) upcoming_events.

(** The loop of lines 143-145.  [sent_emails] is the dict being
    mutated; the list iterated was computed before the loop. *)
Fixpoint notify_loop (new_events : list event) (sent_emails : dict)
  : M dict :=
  match new_events with
  | [] => ret sent_emails
  | e :: rest =>
      ok <- send_mail_for_event e ;;
      if ok : bool then
        iso <- lift (isoformat (dtstart e)) ;;
        notify_loop rest (dict_set (summary e) iso sent_emails)
      else notify_loop rest sent_emails
  end.

(** Lines 120-148 of [run_task]: what follows the loading of the
    ledger. *)
Definition notify_new_events (events : list event) (sent_emails : dict)
  : M unit :=
  upcoming_events <- upcoming_loop events [] ;;
  match upcoming_events with
  | [] => ret tt                                   (* line 135 *)
  | _ :: _ =>
      let new_events := new_events_of upcoming_events sent_emails in
      match new_events with
      | [] => ret tt                               (* line 141 *)
      | _ :: _ =>
          sent_emails' <- notify_loop new_events sent_emails ;;
          write_sent_emails sent_emails'
      end
  end.

(** main.py, lines 99-148. *)
Definition run_task : M unit :=
  events <- get_calendar_events ;;
  match events with
  | [] => ret tt                                   (* line 105 *)
  | _ :: _ =>
      sent_emails <- load_sent_emails ;;
      notify_new_events events sent_emails
  end.

(** The dict that lines 107-118 bind to [sent_emails] for a given
    ledger file. *)
Definition loaded_ledger (f : option string) : dict :=
  match f with
  | Some text =>
      match json_load E text with
      | Some d => d
      | None => []
      end
  | None => []
  end.

(** The due set of the run started in [w]: the list [new_events] of
    line 137, empty when the run returns or raises before that line. *)
Definition due_events (w : world) : list event :=
  match get_calendar_events w with
  | (Ok (e :: es), w1) =>
      match load_sent_emails w1 with
      | (Ok sent_emails, w2) =>
          match upcoming_loop (e :: es) [] w2 with
          | (Ok upcoming_events, _) => new_events_of upcoming_events sent_emails
          | (Raise _, _) => []
          end
      | (Raise _, _) => []
      end
  | _ => []
  end.

(** The instances the loop of the expander appends for a batch, and the
    world it leaves. *)
Definition expanded (cs : list component) (w : world) : list event :=
  match expand_loop cs [] w with
  | (Ok events, _) => events
  | (Raise _, _) => []
  end.

Definition after_expanded (cs : list component) (w : world) : world :=
  snd (expand_loop cs [] w).

(** The instances the window loop keeps, and the world it leaves. *)
Definition kept (events : list event) (w : world) : list event :=
  match upcoming_loop events [] w with
  | (Ok upcoming_events, _) => upcoming_events
  | (Raise _, _) => []
  end.

Definition after_kept (events : list event) (w : world) : world :=
  snd (upcoming_loop events [] w).

End Program.

(** ** The json module on ledger documents

    [dumps] is [json.dumps] with its default separators and
    [ensure_ascii]; [loads] is [json.loads] on documents that are one
    object whose members are strings, and [None] (JSONDecodeError) on
    text that is no JSON document.  A character stands for the code point
    of its number.  JSON documents of another shape (arrays, numbers,
    nested objects) and code points above 255 are outside this model. *)

Module PyJson.

Local Open Scope nat_scope.

Definition dquote : ascii := ascii_of_nat 34.
Definition backslash : ascii := ascii_of_nat 92.

Definition hex_digit (n : nat) : ascii :=
  if n <? 10 then ascii_of_nat (48 + n) else ascii_of_nat (87 + n).

Definition two (a b : ascii) : string := String a (String b EmptyString).

(** The replacement of one character inside a string literal. *)
Definition escape_char (c : ascii) : string :=
  let n := nat_of_ascii c in
  if n =? 34 then two backslash dquote
  else if n =? 92 then two backslash backslash
  else if n =? 8 then two backslash "b"
  else if n =? 9 then two backslash "t"
  else if n =? 10 then two backslash "n"
  else if n =? 12 then two backslash "f"
  else if n =? 13 then two backslash "r"
  else if (n <? 32) || (126 <? n) then
    two backslash "u" ++ "00" ++ two (hex_digit (n / 16)) (hex_digit (n mod 16))
  else String c EmptyString.

Fixpoint escape (s : string) : string :=
  match s with
  | EmptyString => EmptyString
  | String c rest => escape_char c ++ escape rest
  end.

Definition quoted (s : string) : string :=
  String dquote (escape s ++ String dquote EmptyString).

Definition member (kv : string * string) : string :=
  quoted (fst kv) ++ ": " ++ quoted (snd kv).

Definition dumps (d : dict) : string :=
  "{" ++ String.concat ", " (map member d) ++ "}".

Definition is_ws (c : ascii) : bool :=
  let n := nat_of_ascii c in
  (n =? 32) || (n =? 9) || (n =? 10) || (n =? 13).

Fixpoint skip_ws (s : string) : string :=
  match s with
  | String c rest => if is_ws c then skip_ws rest else s
  | EmptyString => s
  end.

Definition hex_value (c : ascii) : option nat :=
  let n := nat_of_ascii c in
  if (48 <=? n) && (n <=? 57) then Some (n - 48)
  else if (97 <=? n) && (n <=? 102) then Some (n - 87)
  else if (65 <=? n) && (n <=? 70) then Some (n - 55)
  else None.

(** The character a one-letter escape stands for. *)
Definition unescape (c : ascii) : option ascii :=
  let n := nat_of_ascii c in
  if n =? 34 then Some dquote
  else if n =? 92 then Some backslash
  else if n =? 47 then Some "/"%char
  else if n =? 98 then Some (ascii_of_nat 8)
  else if n =? 116 then Some (ascii_of_nat 9)
  else if n =? 110 then Some (ascii_of_nat 10)
  else if n =? 102 then Some (ascii_of_nat 12)
  else if n =? 114 then Some (ascii_of_nat 13)
  else None.

Definition cons_char (c : ascii) (r : option (string * string))
  : option (string * string) :=
  match r with
  | Some (s, rest) => Some (String c s, rest)
  | None => None
  end.

(** The body of a string literal, after its opening quote: the decoded
    text and what follows the closing quote. *)
Fixpoint scan_string (s : string) : option (string * string) :=
  match s with
  | EmptyString => None
  | String c rest =>
      if Ascii.eqb c dquote then Some (EmptyString, rest)
      else if Ascii.eqb c backslash then
        match rest with
        | EmptyString => None
        | String e rest1 =>
            match unescape e with
            | Some c' => cons_char c' (scan_string rest1)
            | None =>
                if Ascii.eqb e "u" then
                  match rest1 with
                  | String h1 (String h2 (String h3 (String h4 rest2))) =>
                      match hex_value h1, hex_value h2, hex_value h3, hex_value h4 with
                      | Some 0, Some 0, Some a, Some b =>
                          cons_char (ascii_of_nat (16 * a + b)) (scan_string rest2)
                      | _, _, _, _ => None
                      end
                  | _ => None
                  end
                else None
            end
        end
      else if nat_of_ascii c <? 32 then None
      else cons_char c (scan_string rest)
  end.

Definition string_literal (s : string) : option (string * string) :=
  match s with
  | String c rest => if Ascii.eqb c dquote then scan_string rest else None
  | EmptyString => None
  end.

Definition at_end (s : string) : bool :=
  match skip_ws s with
  | EmptyString => true
  | String _ _ => false
  end.

(** The members of an object, from its first key on; a repeated key
    keeps its place and takes the later value, as in a Python dict. *)
Fixpoint members (fuel : nat) (s : string) (acc : dict) : option dict :=
  match fuel with
  | O => None
  | S fuel' =>
      match string_literal (skip_ws s) with
      | None => None
      | Some (k, s1) =>
          match skip_ws s1 with
          | String ":" s2 =>
              match string_literal (skip_ws s2) with
              | None => None
              | Some (v, s3) =>
                  let acc' := dict_set k v acc in
                  match skip_ws s3 with
                  | String "," s4 => members fuel' s4 acc'
                  | String "}" s4 => if at_end s4 then Some acc' else None
                  | _ => None
                  end
              end
          | _ => None
          end
      end
  end.

Definition loads (s : string) : option dict :=
  match skip_ws s with
  | String "{" r =>
      match skip_ws r with
      | String "}" r' => if at_end r' then Some [] else None
      | _ => members (String.length s) r []
      end
  | _ => None
  end.

End PyJson.

(** ** Concrete runs *)

Module Examples.

Local Open Scope string_scope.

(** The clock of the examples stands at 2025-01-01T00:00:00, taken in
    UTC; the starts below are offsets from it. *)
Definition t0 : Z := 1735689600 * second.

(** The datetime [d] after [t0], with its ISO text. *)
Definition at_time (d : Z) (iso : string) : temporal :=
  TDateTime {| timestamp := t0 + d; datetime_isoformat := iso |}.

Definition vevent (title : string) (start stop : temporal) : component :=
  {| name := "VEVENT"; get_dtstart := Some start; get_dtend := Some stop;
     get_summary := Some title; get_description := None;
     get_location := None |}.

(** A run environment: the clock stands still at [t], the feed holds
    the components [cs], none of them recurring, all of them in the
    expansion window; every mail has outcome [r]; json is Python's. *)
Definition env_of (t : Z) (cs : list component) (r : outcome) : env :=
  {| clock := fun _ => t;
     requests_get := FetchBody "BEGIN:VCALENDAR";
     from_ical := fun _ => Some (Calendar cs);
     between := fun cal _ _ => match cal with Calendar l => Some l end;
     smtp := fun _ _ => r;
     json_load := PyJson.loads;
     json_dump := PyJson.dumps |}.

Definition q : string := String PyJson.dquote EmptyString.

Definition standup_1h : component :=
  vevent "Standup" (at_time (hours 1) "2025-01-01T01:00:00")
                   (at_time (hours 2) "2025-01-01T02:00:00").

Definition standup_3h : component :=
  vevent "Standup" (at_time (hours 3) "2025-01-01T03:00:00")
                   (at_time (hours 4) "2025-01-01T04:00:00").

Definition review_23h : component :=
  vevent "Review" (at_time (hours 23) "2025-01-01T23:00:00")
                  (at_time (hours 24) "2025-01-02T00:00:00").

Definition review_24h : component :=
  vevent "Review" (at_time (hours 24) "2025-01-02T00:00:00")
                  (at_time (hours 25) "2025-01-02T01:00:00").

Definition review_25h : component :=
  vevent "Review" (at_time (hours 25) "2025-01-02T01:00:00")
                  (at_time (hours 26) "2025-01-02T02:00:00").

Definition started_1m_ago : component :=
  vevent "Kickoff" (at_time (- minutes 1) "2024-12-31T23:59:00")
                   (at_time (minutes 59) "2025-01-01T00:59:00").

(** A VEVENT whose DTSTART is absent. *)
Definition no_dtstart : component :=
  {| name := "VEVENT"; get_dtstart := None;
     get_dtend := Some (at_time (hours 2) "2025-01-01T02:00:00");
     get_summary := Some "Broken"; get_description := None;
     get_location := None |}.

(** The instance lines 86-92 build from a component of [vevent]. *)
Definition event_of (c : component) : event :=
  {| summary := str_of (get_summary c);
     dtstart := match get_dtstart c with Some t => t | None => TOther end;
     dtend := match get_dtend c with Some t => t | None => TOther end;
     description := str_or_empty (get_description c);
     location := str_or_empty (get_location c) |}.

(** A ledger file as the program writes it, with one entry. *)
Definition ledger_with (k v : string) : string := PyJson.dumps [(k, v)].


(** The feed cannot be fetched. *)
Definition env_offline : env :=
  {| clock := fun _ => t0;
     requests_get := FetchRaises;
     from_ical := fun _ => Some (Calendar []);
     between := fun cal _ _ => match cal with Calendar l => Some l end;
     smtp := fun _ _ => Sent;
     json_load := PyJson.loads;
     json_dump := PyJson.dumps |}.

(** Two imminent occurrences of one title, every mail delivered. *)
Definition env_two_standups : env :=
  env_of t0 [standup_1h; standup_3h] Sent.

(** One imminent occurrence, every mail failing. *)
Definition env_mail_down : env := env_of t0 [standup_1h] Failed.

(** Three components, the second malformed. *)
Definition env_one_broken : env :=
  env_of t0 [standup_1h; no_dtstart; review_23h] Sent.

(** The feed expands to nothing. *)
Definition env_no_events : env := env_of t0 [] Sent.

(** One occurrence that began a minute ago and one to come. *)
Definition env_one_past : env := env_of t0 [started_1m_ago; standup_1h] Sent.

(** A new title next to one the ledger knows. *)
Definition env_known_review : env :=
  env_of t0 [standup_1h; review_23h] Sent.

(** The three occurrences around the cutoff. *)
Definition env_reviews : env :=
  env_of t0 [review_25h; review_24h; review_23h] Sent.

(** The world in which [get_calendar_events] leaves a run that began in
    [fresh 0 0 f] and took [n] readings of the clock. *)
Definition expanded_world (n : nat) (f : option string) : world :=
  {| ticks := n; mails := 0; ledger_file := f; trace := [HttpGet] |}.

End Examples.

(** ** Notions the properties are stated with *)

(** The instance a component stands for when it is a VEVENT whose
    DTSTART normalizes and whose DTEND is present: a well-formed event
    component.  Any other component has none. *)
Definition instance_of (c : component) : option event :=
  if String.eqb (name c) "VEVENT" then
    match get_dtstart c, get_dtend c with
    | Some s, Some e =>
        match fix_datetime s with
        | Ok _ =>
            Some {| summary := str_of (get_summary c);
                    dtstart := s;
                    dtend := e;
                    description := str_or_empty (get_description c);
                    location := str_or_empty (get_location c) |}
        | Raise _ => None
        end
    | _, _ => None
    end
  else None.

(** Does the effect touch the ledger file or its directory? *)
Definition touches_ledger (ef : effect) : bool :=
  match ef with
  | ReadLedger | MakeDirs | WriteLedger _ => true
  | HttpGet | Dispatch _ _ => false
  end.

(** The events [send_mail_for_event] was called on, in order. *)
Fixpoint dispatched (tr : list effect) : list event :=
  match tr with
  | [] => []
  | Dispatch e _ :: rest => e :: dispatched rest
  | _ :: rest => dispatched rest
  end.

(** How many events of a list carry identity [x]. *)
Definition count_summary (x : string) (l : list event) : nat :=
  List.length (filter (fun e => String.eqb (summary e) x) l).

(** How many dispatches a trace holds for identity [x]. *)
Definition dispatches_for (x : string) (tr : list effect) : nat :=
  count_summary x (dispatched tr).

(** Only the clock moved between [w] and [w']. *)
Definition clock_only (w w' : world) : Prop :=
  ledger_file w' = ledger_file w /\ trace w' = trace w /\
  mails w' = mails w /\ (ticks w <= ticks w')%nat.

(** ** Start-up: the configuration and [main] *)

(** [os.environ.get(var)], after [load_dotenv()]. *)
Definition environ : Type := string -> option string.

(** main.py, lines 28-36. *)
Definition required_vars : list string :=
  ["CALENDAR_URL"; "SMTP_HOST"; "SMTP_PORT"; "SMTP_USER"; "SMTP_PASSWORD";
   "EMAIL_FROM"; "EMAIL_TO"].

(** [not environ.get(var)]: the variable is absent, or its text is
    empty. *)
Definition unset (vars : environ) (var : string) : bool :=
  match vars var with
  | None => true
  | Some EmptyString => true
  | Some (String _ _) => false
  end.

(** main.py, lines 27-41: the value returned, and the lines printed. *)
Definition check_config (vars : environ) : bool * list string :=
  let missing_vars := filter (unset vars) required_vars in
  match missing_vars with
  | [] => (true, [])
  | _ :: _ =>
      (false,
       [("Missing required environment variables: "
         ++ String.concat ", " missing_vars)%string])
  end.

(** The dict CONFIG of lines 44-52. *)
Record config : Type := mk_config {
  CALENDAR_URL : option string;
  SMTP_HOST : option string;
  SMTP_PORT : Z;
  SMTP_USER : option string;
  SMTP_PASSWORD : option string;
  EMAIL_FROM : option string;
  EMAIL_TO : option string
}.

(** Lines 44-52, evaluated when the module is loaded.  [int] is
    Python's [int] on text, [None] when it raises ValueError; on the
    default, the number 587, it is the identity. *)
Definition CONFIG (int : string -> option Z) (vars : environ)
  : option config :=
  match (match vars "SMTP_PORT" with
         | Some text => int text
         | None => Some 587%Z
         end) with
  | Some port =>
      Some {| CALENDAR_URL := vars "CALENDAR_URL";
              SMTP_HOST := vars "SMTP_HOST";
              SMTP_PORT := port;
              SMTP_USER := vars "SMTP_USER";
              SMTP_PASSWORD := vars "SMTP_PASSWORD";
              EMAIL_FROM := vars "EMAIL_FROM";
              EMAIL_TO := vars "EMAIL_TO" |}
  | None => None
  end.

(** How the process stands once [main] has reached the scheduler or
    ended before it. *)
Inductive process : Type :=
| ImportFailed (w : world)                 (* ValueError at line 47 *)
| Exited (code : Z) (printed : list string) (w : world)   (* lines 197-199 *)
| Died (x : exn) (w : world)               (* line 201 raised *)
| Scheduling (w : world).                  (* lines 203-210 reached *)

(** The module body and [main], lines 44-52 and 196-210, up to the
    start of the scheduler. *)
Definition main (int : string -> option Z) (vars : environ) (E : env)
           (w : world) : process :=
  match CONFIG int vars with
  | None => ImportFailed w
  | Some _ =>
      let (ok, printed) := check_config vars in
      if ok then
        match run_task E w with
        | (Ok _, w') => Scheduling w'
        | (Raise x, w') => Died x w'
        end
      else Exited 1 printed w
  end.

(** ** More notions for the properties *)

(** What lines 107-118 do to the ledger file [f], and what they leave
    in its place. *)
Definition load_effects (f : option string) : list effect :=
  ReadLedger :: match f with
                | Some _ => []
                | None => [MakeDirs; WriteLedger []]
                end.

Definition ledger_after_load (E : env) (f : option string) : option string :=
  match f with
  | Some text => Some text
  | None => Some (json_dump E [])
  end.

Definition is_dispatch (ef : effect) : bool :=
  match ef with
  | Dispatch _ _ => true
  | _ => false
  end.

(** The last event of summary [k] that a trace shows delivered. *)
Fixpoint last_delivered (k : string) (tr : list effect) : option event :=
  match tr with
  | [] => None
  | ef :: rest =>
      match last_delivered k rest with
      | Some e => Some e
      | None =>
          match ef with
          | Dispatch e Sent => if String.eqb (summary e) k then Some e else None
          | _ => None
          end
      end
  end.

(** The text line 145 stores for an event. *)
Definition iso_of (e : event) : option string :=
  match isoformat (dtstart e) with
  | Ok iso => Some iso
  | Raise _ => None
  end.

(** The world the next run of the process starts in. *)
Definition next_run (w : world) : world :=
  fresh (ticks w) (mails w) (ledger_file w).

(** The same environment with another mail transport. *)
Definition with_smtp (E : env) (s : nat -> event -> outcome) : env :=
  {| clock := clock E; requests_get := requests_get E;
     from_ical := from_ical E; between := between E; smtp := s;
     json_load := json_load E; json_dump := json_dump E |}.

(** The shapes a run started in [fresh t m f] can take, by its result
    and the world it leaves; [expansion] is what [get_calendar_events]
    gave and [due] is the due set. *)
Inductive run_shape (E : env) (f : option string)
          (expansion : result (list event)) (due : list event)
  : result unit -> world -> Prop :=
| FeedFailed (x : exn) (w' : world) :
    expansion = Raise x ->
    x = FetchError \/ x = CalendarError ->
    due = [] ->
    trace w' = [HttpGet] -> ledger_file w' = f ->
    run_shape E f expansion due (Raise x) w'
| NoInstance (w' : world) :
    expansion = Ok [] ->
    due = [] ->
    trace w' = [HttpGet] -> ledger_file w' = f ->
    run_shape E f expansion due (Ok tt) w'
| NothingDue (e0 : event) (es : list event) (w' : world) :
    expansion = Ok (e0 :: es) ->
    due = [] ->
    trace w' = HttpGet :: load_effects f ->
    ledger_file w' = ledger_after_load E f ->
    run_shape E f expansion due (Ok tt) w'
| Notified (e0 : event) (es : list event) (ds : list effect) (d' : dict)
           (w' : world) :
    expansion = Ok (e0 :: es) ->
    due <> [] ->
    forallb is_dispatch ds = true ->
    dispatched ds = due ->
    (forall e, ~ In (Dispatch e Crashed) ds) ->
    (forall k, dict_get k d'
               = match last_delivered k ds with
                 | Some e => iso_of e
                 | None => dict_get k (loaded_ledger E f)
                 end) ->
    trace w' = HttpGet :: load_effects f ++ ds ++ [WriteLedger d'] ->
    ledger_file w' = Some (json_dump E d') ->
    run_shape E f expansion due (Ok tt) w'
| DispatchRaised (e0 : event) (es : list event) (pre : list effect)
                 (e : event) (rest : list event) (w' : world) :
    expansion = Ok (e0 :: es) ->
    forallb is_dispatch pre = true ->
    due = dispatched pre ++ e :: rest ->
    (forall e', ~ In (Dispatch e' Crashed) pre) ->
    trace w' = HttpGet :: load_effects f ++ pre ++ [Dispatch e Crashed] ->
    ledger_file w' = ledger_after_load E f ->
    run_shape E f expansion due (Raise DispatchError) w'.

(** ** Parts of [send_mail_for_event] *)

(** Lines 154-155: [v if isinstance(v, datetime.datetime) else
    datetime.datetime.combine(v, datetime.time.min)]; [combine] raises
    TypeError on what is no date, which is [None] here. *)
Definition or_midnight (v : temporal) : option datetime :=
  match v with
  | TDateTime d => Some d
  | TDate d => Some (combine_min d)
  | TOther => None
  end.

Definition start_time (e : event) : option datetime := or_midnight (dtstart e).

Definition end_time (e : event) : option datetime := or_midnight (dtend e).

(** [s.split(',')]: the pieces between the commas, empty ones
    included, nothing trimmed. *)
Fixpoint split_comma (s : string) : list string :=
  match s with
  | EmptyString => [EmptyString]
  | String c rest =>
      if Ascii.eqb c ","%char then EmptyString :: split_comma rest
      else match split_comma rest with
           | piece :: pieces => String c piece :: pieces
           | [] => [String c EmptyString]
           end
  end.

(** Line 189: [CONFIG['EMAIL_TO'].split(',')]; [None] has no [split]. *)
Definition recipients (cfg : config) : option (list string) :=
  match EMAIL_TO cfg with
  | Some addresses => Some (split_comma addresses)
  | None => None
  end.

(** The number of commas of a text. *)
Fixpoint comma_count (s : string) : nat :=
  match s with
  | EmptyString => O
  | String c rest =>
      if Ascii.eqb c ","%char then S (comma_count rest) else comma_count rest
  end.

(** ** More concrete inputs *)

Module MoreExamples.

Import Examples.

Local Open Scope string_scope.

(** An environment holding the variables of a list. *)
Definition environ_of (l : list (string * string)) : environ :=
  fun var => dict_get var l.

Definition vars_complete : environ :=
  environ_of [("CALENDAR_URL", "https://example.org/feed.ics");
              ("SMTP_HOST", "mail.example.org");
              ("SMTP_PORT", "2525");
              ("SMTP_USER", "bot");
              ("SMTP_PASSWORD", "secret");
              ("EMAIL_FROM", "bot@example.org");
              ("EMAIL_TO", "a@example.org,b@example.org")].

(** SMTP_HOST is empty, SMTP_PORT and EMAIL_TO are absent. *)
Definition vars_incomplete : environ :=
  environ_of [("CALENDAR_URL", "https://example.org/feed.ics");
              ("SMTP_HOST", EmptyString);
              ("SMTP_USER", "bot");
              ("SMTP_PASSWORD", "secret");
              ("EMAIL_FROM", "bot@example.org")].

Fixpoint digits (s : string) (acc : Z) : option Z :=
  match s with
  | EmptyString => Some acc
  | String c rest =>
      let n := nat_of_ascii c in
      if ((48 <=? n) && (n <=? 57))%nat
      then digits rest (10 * acc + Z.of_nat (n - 48))%Z
      else None
  end.

(** Python's [int] on a text made of ASCII digits; [None] on the empty
    text and on text with another character (of which Python accepts
    some: a sign, blanks around, underscores between digits). *)
Definition int_of_digits (s : string) : option Z :=
  match s with
  | EmptyString => None
  | String _ _ => digits s 0
  end.

(** The feed is fetched and is no calendar. *)
Definition env_bad_feed : env :=
  {| clock := fun _ => t0;
     requests_get := FetchBody "<html>";
     from_ical := fun _ => None;
     between := fun cal _ _ => match cal with Calendar l => Some l end;
     smtp := fun _ _ => Sent;
     json_load := PyJson.loads;
     json_dump := PyJson.dumps |}.

(** A VTODO and a VTIMEZONE beside one event. *)
Definition vtodo : component :=
  {| name := "VTODO"; get_dtstart := None; get_dtend := None;
     get_summary := Some "Buy milk"; get_description := None;
     get_location := None |}.

(** Mails: the first call delivers, the second raises. *)
Definition second_mail_raises (n : nat) (e : event) : outcome :=
  match n with
  | O => Sent
  | _ => Crashed
  end.

Definition env_second_raises : env :=
  with_smtp (env_of t0 [standup_1h; review_23h] Sent) second_mail_raises.

(** Mails: Standup is delivered, everything else fails. *)
Definition only_standup (n : nat) (e : event) : outcome :=
  if String.eqb (summary e) "Standup" then Sent else Failed.

Definition env_only_standup : env :=
  with_smtp (env_of t0 [standup_1h; review_23h; standup_3h] Sent) only_standup.

(** The CONFIG of [vars_complete]. *)
Definition config_complete : config :=
  {| CALENDAR_URL := Some "https://example.org/feed.ics";
     SMTP_HOST := Some "mail.example.org";
     SMTP_PORT := 2525;
     SMTP_USER := Some "bot";
     SMTP_PASSWORD := Some "secret";
     EMAIL_FROM := Some "bot@example.org";
     EMAIL_TO := Some "a@example.org,b@example.org" |}.

(** Runs from the start of a process. *)
Definition run_second_raises : result unit * world :=
  run_task env_second_raises (fresh 0 0 (Some "{}")).

Definition run_only_standup : result unit * world :=
  run_task env_only_standup (fresh 0 0 (Some "{}")).

Definition run_two_standups : result unit * world :=
  run_task env_two_standups (fresh 0 0 (Some "{}")).

Definition known_standup : string :=
  ledger_with "Standup" "2024-12-31T01:00:00".

Definition run_known_standup : result unit * world :=
  run_task env_two_standups (fresh 0 0 (Some known_standup)).

Definition run_without_ledger : result unit * world :=
  run_task env_mail_down (fresh 0 0 None).

Definition run_mail_down : result unit * world :=
  run_task env_mail_down (fresh 0 0 (Some "{}")).

End MoreExamples.

(** ** Lemmas on the dict *)

Lemma dict_get_set_same (k v : string) (d : dict) :
  dict_get k (dict_set k v d) = Some v.
Proof.
  induction d as [|[k' v'] d IH]; simpl.
  - now rewrite String.eqb_refl.
  - destruct (String.eqb k k') eqn:Hk; simpl.
    + now rewrite String.eqb_refl.
    + now rewrite Hk.
Qed.

Lemma dict_get_set_other (k k' v : string) (d : dict) :
  k <> k' -> dict_get k (dict_set k' v d) = dict_get k d.
Proof.
  intros Hne. induction d as [|[k0 v0] d IH]; simpl.
  - apply String.eqb_neq in Hne. now rewrite Hne.
  - destruct (String.eqb k' k0) eqn:Hk; simpl.
    + apply String.eqb_eq in Hk. subst k0.
      apply String.eqb_neq in Hne. now rewrite Hne.
    + now rewrite IH.
Qed.

Lemma dict_mem_set (k k' v : string) (d : dict) :
  dict_mem k (dict_set k' v d) = String.eqb k k' || dict_mem k d.
Proof.
  unfold dict_mem. destruct (String.eqb k k') eqn:Hk.
  - apply String.eqb_eq in Hk. subst. now rewrite dict_get_set_same.
  - apply String.eqb_neq in Hk. now rewrite dict_get_set_other.
Qed.

Lemma dict_count_absent (k : string) (d : dict) :
  dict_mem k d = false -> dict_count k d = 0%nat.
Proof.
  unfold dict_mem, dict_count.
  induction d as [|[k' v'] d IH]; simpl; [reflexivity|].
  destruct (String.eqb k k'); [discriminate|]. exact IH.
Qed.

Lemma dict_count_set_same (k v : string) (d : dict) :
  dict_count k (dict_set k v d)
  = if dict_mem k d then dict_count k d else 1%nat.
Proof.
  unfold dict_mem, dict_count.
  induction d as [|[k' v'] d IH]; simpl.
  - now rewrite String.eqb_refl.
  - destruct (String.eqb k k') eqn:Hk; simpl.
    + now rewrite String.eqb_refl.
    + now rewrite Hk.
Qed.

Lemma dict_count_set_other (k k' v : string) (d : dict) :
  k <> k' -> dict_count k (dict_set k' v d) = dict_count k d.
Proof.
  intros Hne. unfold dict_count.
  induction d as [|[k0 v0] d IH]; simpl.
  - apply String.eqb_neq in Hne. now rewrite Hne.
  - destruct (String.eqb k' k0) eqn:Hk; simpl.
    + apply String.eqb_eq in Hk. subst k0.
      apply String.eqb_neq in Hne. now rewrite Hne.
    + destruct (String.eqb k k0); simpl; now rewrite IH.
Qed.

(** ** Lemmas on the trace *)

Lemma dispatched_app (t1 t2 : list effect) :
  dispatched (t1 ++ t2) = dispatched t1 ++ dispatched t2.
Proof.
  induction t1 as [|ef t1 IH]; simpl; [reflexivity|].
  destruct ef; simpl; now rewrite ?IH.
Qed.

Lemma dispatched_In (e : event) (r : outcome) (tr : list effect) :
  In (Dispatch e r) tr -> In e (dispatched tr).
Proof.
  induction tr as [|ef tr IH]; simpl; [tauto|].
  intros [->|Hin]; [now left|].
  destruct ef; simpl; auto.
Qed.

Lemma dispatched_map (r : outcome) (l : list event) :
  dispatched (map (fun e => Dispatch e r) l) = l.
Proof.
  induction l as [|e l IH]; simpl; [reflexivity | now rewrite IH].
Qed.

Lemma count_summary_In (x : string) (l : list event) :
  (1 <= count_summary x l)%nat -> exists e, In e l /\ summary e = x.
Proof.
  unfold count_summary. induction l as [|e l IH]; simpl; [lia|].
  destruct (String.eqb (summary e) x) eqn:Hx.
  - intros _. exists e. split; [now left | now apply String.eqb_eq].
  - intros H. destruct (IH H) as (e' & He' & Hs). exists e'. split; [now right | exact Hs].
Qed.

Lemma In_dispatched (e : event) (tr : list effect) :
  In e (dispatched tr) -> exists r, In (Dispatch e r) tr.
Proof.
  induction tr as [|ef tr IH]; simpl; [tauto|].
  destruct ef; simpl; intros H;
    try (destruct (IH H) as [r Hr]; exists r; now right).
  destruct H as [->|H].
  - exists r. now left.
  - destruct (IH H) as [r' Hr]. exists r'. now right.
Qed.

(** ** The phases of a run *)

Section Phases.

Variable E : env.

Lemma clock_only_refl (w : world) : clock_only w w.
Proof. unfold clock_only; auto. Qed.

Lemma clock_only_tick (w : world) : clock_only w (tick w).
Proof. unfold clock_only; simpl; auto. Qed.

Lemma clock_only_trans (w1 w2 w3 : world) :
  clock_only w1 w2 -> clock_only w2 w3 -> clock_only w1 w3.
Proof.
  unfold clock_only. intros (A1 & A2 & A3 & A4) (B1 & B2 & B3 & B4).
  repeat split; try congruence. lia.
Qed.

(** A well-formed event component reads the clock once and gives its
    instance unless that lies in the past. *)
Lemma vevent_instance_well_formed (c : component) (e : event) (w : world) :
  instance_of c = Some e ->
  exists dt,
    fix_datetime (dtstart e) = Ok dt /\
    vevent_instance E c w
    = (Ok (if (timestamp dt <? clock E (ticks w))%Z then None else Some e),
       tick w).
Proof.
  unfold instance_of, vevent_instance.
  destruct (String.eqb (name c) "VEVENT"); [|discriminate].
  destruct (get_dtstart c) as [s|]; [|discriminate].
  destruct (get_dtend c) as [t|]; [|discriminate].
  destruct (fix_datetime s) as [dt|x] eqn:Hfix; [|discriminate].
  intros [= <-]. exists dt. simpl. split; [assumption|].
  unfold bind, lift, now, ret. simpl. rewrite Hfix.
  destruct (timestamp dt <? clock E (ticks w))%Z; reflexivity.
Qed.

(** Any other component gives no instance, whatever it raises. *)
Lemma vevent_instance_malformed (c : component) (w : world) :
  instance_of c = None ->
  exists r w',
    vevent_instance E c w = (r, w') /\
    (forall e, r <> Ok (Some e)) /\
    clock_only w w' /\ (ticks w' <= S (ticks w))%nat.
Proof.
  unfold instance_of, vevent_instance.
  destruct (String.eqb (name c) "VEVENT").
  - destruct (get_dtstart c) as [s|]; simpl.
    + destruct (fix_datetime s) as [dt|x] eqn:Hfix.
      * destruct (get_dtend c) as [t|]; [discriminate|]. intros _.
        unfold bind, lift, now, ret. simpl. rewrite Hfix.
        destruct (timestamp dt <? clock E (ticks w))%Z.
        -- exists (Ok None), (tick w). repeat split; simpl; auto.
           discriminate.
        -- exists (Raise AttributeError), (tick w).
           repeat split; simpl; auto. discriminate.
      * intros _. unfold bind, lift. simpl. rewrite Hfix.
        exists (Raise x), w. repeat split; auto. discriminate.
    + intros _. exists (Raise AttributeError), w.
      repeat split; auto. discriminate.
  - intros _. exists (Ok None), w. repeat split; auto. discriminate.
Qed.

Lemma expand_loop_acc (cs : list component) :
  forall (acc : list event) (w : world),
    expand_loop E cs acc w
    = match expand_loop E cs [] w with
      | (Ok evs, w') => (Ok (acc ++ evs), w')
      | (Raise x, w') => (Raise x, w')
      end.
Proof.
  induction cs as [|c cs IH]; intros acc w; simpl.
  - unfold ret. now rewrite app_nil_r.
  - destruct (vevent_instance E c w) as [[[e|]|x] w1]; simpl.
    + rewrite (IH (acc ++ [e])), (IH [e]).
      destruct (expand_loop E cs [] w1) as [[evs|x] w2]; [|reflexivity].
      now rewrite <- app_assoc.
    + apply IH.
    + apply IH.
Qed.

(** The loop of the expander never raises; its output is made of the
    instances of well-formed event components, each one not before the
    clock reading taken for it, and it holds every such instance that
    is not before any reading of the loop. *)
Lemma expand_loop_spec (cs : list component) :
  forall w : world,
  exists evs w',
    expand_loop E cs [] w = (Ok evs, w') /\
    clock_only w w' /\
    (forall e, In e evs ->
       exists c dt k,
         In c cs /\ instance_of c = Some e /\
         fix_datetime (dtstart e) = Ok dt /\
         (ticks w <= k < ticks w')%nat /\ (clock E k <= timestamp dt)%Z) /\
    (forall c e dt,
       In c cs -> instance_of c = Some e ->
       fix_datetime (dtstart e) = Ok dt ->
       (forall k, (ticks w <= k < ticks w')%nat -> (clock E k <= timestamp dt)%Z) ->
       In e evs).
Proof.
  induction cs as [|c cs IH]; intros w.
  - exists [], w. simpl. repeat split; auto using clock_only_refl; tauto.
  - destruct (IH (tick w)) as (evs1 & w1 & Hrun1 & Hco1 & Hsound1 & Hcompl1).
    simpl. destruct (instance_of c) as [e0|] eqn:Hinst.
    + destruct (vevent_instance_well_formed c e0 w Hinst) as (dt0 & Hfix0 & Hv).
      rewrite Hv. clear Hv.
      assert (Hticks : (S (ticks w) <= ticks w1)%nat)
        by (destruct Hco1 as (_ & _ & _ & H); exact H).
      assert (Hco : clock_only w w1)
        by (eapply clock_only_trans; [apply clock_only_tick | exact Hco1]).
      destruct (timestamp dt0 <? clock E (ticks w))%Z eqn:Hpast.
      * exists evs1, w1. rewrite Hrun1. repeat split; try apply Hco.
        -- intros e He. destruct (Hsound1 e He) as (c' & dt & k & H1 & H2 & H3 & H4 & H5).
           exists c', dt, k. simpl in H4. repeat split; auto; lia.
        -- intros c' e dt [<-|Hin] Hi Hf Hall.
           ++ rewrite Hinst in Hi. injection Hi as <-.
              rewrite Hfix0 in Hf. injection Hf as <-.
              apply Z.ltb_lt in Hpast.
              specialize (Hall (ticks w)). lia.
           ++ apply (Hcompl1 c' e dt Hin Hi Hf).
              intros k Hk. apply Hall. simpl in Hk. lia.
      * rewrite expand_loop_acc, Hrun1.
        exists ([e0] ++ evs1), w1. repeat split; try apply Hco.
        -- intros e [<-|He].
           ++ exists c, dt0, (ticks w). apply Z.ltb_ge in Hpast.
              repeat split; auto; lia.
           ++ destruct (Hsound1 e He) as (c' & dt & k & H1 & H2 & H3 & H4 & H5).
              exists c', dt, k. simpl in H4. repeat split; auto; lia.
        -- intros c' e dt [<-|Hin] Hi Hf Hall.
           ++ rewrite Hinst in Hi. injection Hi as <-. now left.
           ++ right. apply (Hcompl1 c' e dt Hin Hi Hf).
              intros k Hk. apply Hall. simpl in Hk. lia.
    + destruct (vevent_instance_malformed c w Hinst)
        as (r & w0 & Hv & Hnone & Hco0 & Hle).
      rewrite Hv.
      destruct (IH w0) as (evs0 & w2 & Hrun0 & Hco2 & Hsound0 & Hcompl0).
      assert (Hco : clock_only w w2)
        by (eapply clock_only_trans; eassumption).
      assert (Hw0 : (ticks w <= ticks w0)%nat)
        by (destruct Hco0 as (_ & _ & _ & H); exact H).
      destruct r as [[e|]|x]; [now destruct (Hnone e)| |];
        (exists evs0, w2; rewrite Hrun0; repeat split; try apply Hco;
         [ intros e He;
           destruct (Hsound0 e He) as (c' & dt & k & H1 & H2 & H3 & H4 & H5);
           exists c', dt, k; repeat split; auto; lia
         | intros c' e dt [<-|Hin] Hi Hf Hall;
           [ congruence
           | apply (Hcompl0 c' e dt Hin Hi Hf); intros k Hk; apply Hall; lia ] ]).
Qed.

Lemma expand_loop_expanded (cs : list component) (w : world) :
  expand_loop E cs [] w = (Ok (expanded E cs w), after_expanded E cs w).
Proof.
  unfold expanded, after_expanded.
  destruct (expand_loop_spec cs w) as (evs & w' & Hrun & _).
  now rewrite Hrun.
Qed.




(** Lines 63-70: a failing fetch is the only effect of the call. *)
Lemma get_calendar_events_fetch_raises (w : world) :
  requests_get E = FetchRaises ->
  get_calendar_events E w = (Raise FetchError, log_effect HttpGet w).
Proof.
  intros H. unfold get_calendar_events, bind, perform. now rewrite H.
Qed.


(** The expander performs the fetch and reads the clock, nothing else. *)
Lemma get_calendar_events_frame (w w' : world) (r : result (list event)) :
  get_calendar_events E w = (r, w') ->
  ledger_file w' = ledger_file w /\ trace w' = trace w ++ [HttpGet] /\
  mails w' = mails w /\ (ticks w <= ticks w')%nat.
Proof.
  unfold get_calendar_events, bind, perform, now.
  destruct (requests_get E) as [|content]; simpl.
  - unfold raise. intros [= <- <-]. simpl. auto.
  - destruct (from_ical E content) as [cal|].
    + destruct (between E cal _ _) as [cs|].
      * destruct (expand_loop_spec cs (tick (tick (log_effect HttpGet w))))
          as (evs & w1 & Hrun & (H1 & H2 & H3 & H4) & _).
        rewrite Hrun. intros [= <- <-]. simpl in *. repeat split; auto. lia.
      * unfold raise. intros [= <- <-]. simpl. repeat split; auto.
    + unfold raise. intros [= <- <-]. simpl. repeat split; auto.
Qed.

(** Lines 107-118. *)
Lemma load_sent_emails_spec (w : world) :
  load_sent_emails E w
  = (Ok (loaded_ledger E (ledger_file w)),
     match ledger_file w with
     | Some _ => log_effect ReadLedger w
     | None =>
         {| ticks := ticks w; mails := mails w;
            ledger_file := Some (json_dump E []);
            trace := trace w ++ [ReadLedger; MakeDirs; WriteLedger []] |}
     end).
Proof.
  unfold load_sent_emails, loaded_ledger, bind, perform. simpl.
  destruct (ledger_file w) as [text|] eqn:Hf.
  - destruct (json_load E text); reflexivity.
  - unfold write_sent_emails, ret. simpl. now rewrite <- !app_assoc.
Qed.

Lemma within_next_hours_ok (e : event) (dt : datetime) (w : world) :
  fix_datetime (dtstart e) = Ok dt ->
  within_next_hours E e w
  = (Ok (timestamp dt <? clock E (ticks w) + hours NEXT_HOURS)%Z, tick w).
Proof.
  intros H. unfold within_next_hours, bind, lift, now, ret. now rewrite H.
Qed.

Lemma within_next_hours_raises (e : event) (x : exn) (w : world) :
  fix_datetime (dtstart e) = Raise x ->
  within_next_hours E e w = (Raise x, w).
Proof.
  intros H. unfold within_next_hours, bind, lift. now rewrite H.
Qed.

Lemma upcoming_loop_acc (events : list event) :
  forall (acc : list event) (w : world),
    upcoming_loop E events acc w
    = match upcoming_loop E events [] w with
      | (Ok ups, w') => (Ok (acc ++ ups), w')
      | (Raise x, w') => (Raise x, w')
      end.
Proof.
  induction events as [|e events IH]; intros acc w; simpl.
  - unfold ret. now rewrite app_nil_r.
  - destruct (within_next_hours E e w) as [[[|]|x] w1]; simpl.
    + rewrite (IH (acc ++ [e])), (IH [e]).
      destruct (upcoming_loop E events [] w1) as [[ups|x] w2]; [|reflexivity].
      now rewrite <- app_assoc.
    + apply IH.
    + apply IH.
Qed.

(** The window loop never raises, touches nothing but the clock, and
    keeps only instances it was given, whose start normalizes. *)
Lemma upcoming_loop_spec (events : list event) :
  forall w : world,
    upcoming_loop E events [] w = (Ok (kept E events w), after_kept E events w) /\
    clock_only w (after_kept E events w) /\
    (forall e, In e (kept E events w) ->
       In e events /\ exists dt, fix_datetime (dtstart e) = Ok dt).
Proof.
  unfold kept, after_kept.
  induction events as [|e events IH]; intros w; simpl.
  - repeat split; auto using clock_only_refl; tauto.
  - destruct (fix_datetime (dtstart e)) as [dt|x] eqn:Hfix.
    + rewrite (within_next_hours_ok e dt w Hfix).
      destruct (IH (tick w)) as (Hrun & Hco & Hin).
      assert (Hco' : clock_only w (snd (upcoming_loop E events [] (tick w))))
        by (eapply clock_only_trans; [apply clock_only_tick | exact Hco]).
      destruct (timestamp dt <? clock E (ticks w) + hours NEXT_HOURS)%Z.
      * rewrite upcoming_loop_acc.
        destruct (upcoming_loop E events [] (tick w)) as [[ups|y] w1];
          [|discriminate Hrun].
        simpl in *. repeat split; try apply Hco'.
        -- destruct H as [<-|H]; [now left | right; now apply Hin].
        -- destruct H as [<-|H]; [now exists dt | now apply Hin].
      * destruct (upcoming_loop E events [] (tick w)) as [[ups|y] w1];
          [|discriminate Hrun].
        simpl in *. repeat split; try apply Hco'.
        -- right; now apply Hin.
        -- now apply Hin.
    + rewrite (within_next_hours_raises e x w Hfix).
      destruct (IH w) as (Hrun & Hco & Hin).
      destruct (upcoming_loop E events [] w) as [[ups|y] w1];
        [|discriminate Hrun].
      simpl in *. repeat split; try apply Hco.
      * right; now apply Hin.
      * now apply Hin.
Qed.


(** The dispatch loop touches neither the ledger file nor the clock; it
    adds one [Dispatch] per call, each for an event of the list it
    iterates; the dict it returns agrees with the one it was given on
    every key that is no summary of that list. *)
Lemma notify_loop_spec (new_events : list event) :
  forall (sent_emails : dict) (w : world),
  exists r w' ds,
    notify_loop E new_events sent_emails w = (r, w') /\
    ledger_file w' = ledger_file w /\ ticks w' = ticks w /\
    trace w' = trace w ++ ds /\
    (forall ef, In ef ds -> exists e o, ef = Dispatch e o /\ In e new_events) /\
    (forall sent_emails', r = Ok sent_emails' ->
       forall k, (forall e, In e new_events -> summary e <> k) ->
                 dict_get k sent_emails' = dict_get k sent_emails).
Proof.
  induction new_events as [|e rest IH]; intros sent_emails w.
  - exists (Ok sent_emails), w, []. simpl. unfold ret.
    repeat split; auto using app_nil_r; try tauto.
    intros s' [= <-]; auto.
  - simpl. unfold bind, send_mail_for_event.
    set (w1 := {| ticks := ticks w; mails := S (mails w);
                  ledger_file := ledger_file w;
                  trace := trace w ++ [Dispatch e (smtp E (mails w) e)] |}).
    assert (Hstep : forall (r : result dict) (w' : world) (ds : list effect)
                      (d : dict),
               ledger_file w' = ledger_file w1 -> ticks w' = ticks w1 ->
               trace w' = trace w1 ++ ds ->
               (forall ef, In ef ds -> exists e' o, ef = Dispatch e' o /\ In e' rest) ->
               (forall s', r = Ok s' ->
                  forall k, (forall e', In e' rest -> summary e' <> k) ->
                            dict_get k s' = dict_get k d) ->
               (forall k, summary e <> k -> dict_get k d = dict_get k sent_emails) ->
               ledger_file w' = ledger_file w /\ ticks w' = ticks w /\
               trace w' = trace w ++ Dispatch e (smtp E (mails w) e) :: ds /\
               (forall ef, In ef (Dispatch e (smtp E (mails w) e) :: ds) ->
                  exists e' o, ef = Dispatch e' o /\ In e' (e :: rest)) /\
               (forall s', r = Ok s' ->
                  forall k, (forall e', In e' (e :: rest) -> summary e' <> k) ->
                            dict_get k s' = dict_get k sent_emails)).
    { intros r w' ds d Hf Ht Htr Hds Hkeep Hd.
      split; [exact Hf|]. split; [exact Ht|].
      split; [rewrite Htr; subst w1; simpl; now rewrite <- app_assoc|].
      split.
      - intros ef [<-|Hin].
        + exists e, (smtp E (mails w) e). split; [reflexivity | now left].
        + destruct (Hds ef Hin) as (e' & o & -> & He').
          exists e', o. split; [reflexivity | now right].
      - intros s' Hr k Hk. rewrite (Hkeep s' Hr k).
        + apply Hd. apply Hk. now left.
        + intros e' He'. apply Hk. now right. }
    assert (Hstop : forall x : exn,
               exists r w' ds,
                 (@Raise dict x, w1) = (r, w') /\
                 ledger_file w' = ledger_file w /\ ticks w' = ticks w /\
                 trace w' = trace w ++ ds /\
                 (forall ef, In ef ds ->
                    exists e' o, ef = Dispatch e' o /\ In e' (e :: rest)) /\
                 (forall s', r = Ok s' -> forall k,
                    (forall e', In e' (e :: rest) -> summary e' <> k) ->
                    dict_get k s' = dict_get k sent_emails)).
    { intros x. exists (Raise x), w1, [Dispatch e (smtp E (mails w) e)].
      split; [reflexivity|].
      assert (Hnil : forall ef : effect, In ef [] ->
                exists e' o, ef = Dispatch e' o /\ In e' rest)
        by (intros ef []).
      destruct (Hstep (Raise x) w1 [] sent_emails eq_refl eq_refl
                      (eq_sym (app_nil_r _)) Hnil)
        as (H1 & H2 & H3 & H4 & _); [discriminate | reflexivity |].
      split; [exact H1|]. split; [exact H2|]. split; [exact H3|].
      split; [exact H4 | discriminate]. }
    clearbody w1.
    destruct (smtp E (mails w) e) eqn:Hout.
    + unfold lift. destruct (isoformat (dtstart e)) as [iso|x] eqn:Hiso.
      * destruct (IH (dict_set (summary e) iso sent_emails) w1)
          as (r & w' & ds & Hrun & Hf & Ht & Htr & Hds & Hkeep).
        exists r, w', (Dispatch e Sent :: ds). rewrite Hrun.
        split; [reflexivity|].
        apply (Hstep r w' ds (dict_set (summary e) iso sent_emails)); auto.
        intros k Hk. apply dict_get_set_other. congruence.
      * apply Hstop.
    + destruct (IH sent_emails w1)
        as (r & w' & ds & Hrun & Hf & Ht & Htr & Hds & Hkeep).
      exists r, w', (Dispatch e Failed :: ds). rewrite Hrun.
      split; [reflexivity|].
      apply (Hstep r w' ds sent_emails); auto.
    + apply Hstop.
Qed.

(** When every call fails, the dict comes back as it was given. *)
Lemma notify_loop_all_failed (new_events : list event) :
  forall (sent_emails : dict) (w : world),
    (forall n e, In e new_events -> smtp E n e = Failed) ->
    exists w',
      notify_loop E new_events sent_emails w = (Ok sent_emails, w') /\
      ledger_file w' = ledger_file w /\
      trace w' = trace w ++ map (fun e => Dispatch e Failed) new_events.
Proof.
  induction new_events as [|e rest IH]; intros sent_emails w Hfail.
  - exists w. simpl. unfold ret. now rewrite app_nil_r.
  - simpl. unfold bind, send_mail_for_event.
    rewrite (Hfail (mails w) e) by now left.
    set (w1 := {| ticks := ticks w; mails := S (mails w);
                  ledger_file := ledger_file w;
                  trace := trace w ++ [Dispatch e Failed] |}).
    destruct (IH sent_emails w1) as (w' & Hrun & Hf & Htr).
    { intros n e' He'. apply Hfail. now right. }
    exists w'. rewrite Hrun. repeat split; auto.
    rewrite Htr. subst w1. simpl. now rewrite <- app_assoc.
Qed.


Lemma new_events_of_absent (ups : list event) (sent_emails : dict) (e : event) :
  In e (new_events_of ups sent_emails) ->
  In e ups /\ dict_mem (summary e) sent_emails = false.
Proof.
  unfold new_events_of. rewrite filter_In. intros [H1 H2].
  split; [assumption|]. now apply negb_true_iff.
Qed.

(** Lines 120-148, by the due set. *)
Lemma notify_new_events_unfold (events : list event) (sent_emails : dict)
      (w : world) :
  notify_new_events E events sent_emails w
  = match new_events_of (kept E events w) sent_emails with
    | [] => (Ok tt, after_kept E events w)
    | e :: es =>
        match notify_loop E (e :: es) sent_emails (after_kept E events w) with
        | (Ok sent_emails', w') => write_sent_emails E sent_emails' w'
        | (Raise x, w') => (Raise x, w')
        end
    end.
Proof.
  unfold notify_new_events, bind.
  destruct (upcoming_loop_spec events w) as (Hrun & _). rewrite Hrun.
  destruct (kept E events w) as [|u ups]; [reflexivity|].
  destruct (new_events_of (u :: ups) sent_emails); reflexivity.
Qed.

(** [run_task], by its phases. *)
Lemma run_task_unfold (w : world) :
  run_task E w
  = match get_calendar_events E w with
    | (Ok [], w1) => (Ok tt, w1)
    | (Ok (e :: es), w1) =>
        notify_new_events E (e :: es) (loaded_ledger E (ledger_file w))
                          (snd (load_sent_emails E w1))
    | (Raise x, w1) => (Raise x, w1)
    end.
Proof.
  unfold run_task, bind.
  destruct (get_calendar_events E w) as [[[|e es]|x] w1] eqn:Hget; try reflexivity.
  destruct (get_calendar_events_frame _ _ _ Hget) as (Hf & _).
  rewrite load_sent_emails_spec. simpl. now rewrite Hf.
Qed.

Lemma due_events_unfold (w : world) :
  due_events E w
  = match get_calendar_events E w with
    | (Ok (e :: es), w1) =>
        new_events_of (kept E (e :: es) (snd (load_sent_emails E w1)))
                      (loaded_ledger E (ledger_file w))
    | _ => []
    end.
Proof.
  unfold due_events.
  destruct (get_calendar_events E w) as [[[|e es]|x] w1] eqn:Hget;
    try reflexivity.
  destruct (get_calendar_events_frame _ _ _ Hget) as (Hf & _).
  rewrite load_sent_emails_spec. simpl snd. rewrite Hf.
  match goal with
  | |- context [upcoming_loop E ?l [] ?v] =>
      destruct (upcoming_loop_spec l v) as (Hrun & _); rewrite Hrun
  end.
  reflexivity.
Qed.

Lemma isoformat_of_fixed (v : temporal) (dt : datetime) :
  fix_datetime v = Ok dt -> exists iso, isoformat v = Ok iso.
Proof.
  destruct v as [d|d|]; simpl; intros H; try discriminate; eauto.
Qed.

Lemma dict_count_present (k : string) (d : dict) :
  dict_count k d = 1%nat -> dict_mem k d = true.
Proof.
  intros H. destruct (dict_mem k d) eqn:Hm; [reflexivity|].
  rewrite (dict_count_absent k d Hm) in H. discriminate.
Qed.

(** Assignments keep a key that has one entry at one entry. *)
Lemma dict_count_set_one (k k' v : string) (d : dict) :
  dict_count k d = 1%nat -> dict_count k (dict_set k' v d) = 1%nat.
Proof.
  intros H. destruct (String.eqb k k') eqn:Hk.
  - apply String.eqb_eq in Hk. subst k'.
    rewrite dict_count_set_same, (dict_count_present k d H). exact H.
  - apply String.eqb_neq in Hk. now rewrite dict_count_set_other.
Qed.

(** When every call delivers, the loop calls [send_mail_for_event]
    once for each event of its list, in order, and a summary of the
    list that was no key of the dict has one entry in the dict
    returned. *)
Lemma notify_loop_all_sent (new_events : list event) :
  forall (sent_emails : dict) (w : world),
    (forall n e, smtp E n e = Sent) ->
    (forall e, In e new_events -> exists dt, fix_datetime (dtstart e) = Ok dt) ->
    exists sent_emails' w',
      notify_loop E new_events sent_emails w = (Ok sent_emails', w') /\
      ledger_file w' = ledger_file w /\
      trace w' = trace w ++ map (fun e => Dispatch e Sent) new_events /\
      (forall x, dict_count x sent_emails = 1%nat ->
                 dict_count x sent_emails' = 1%nat) /\
      (forall x, dict_mem x sent_emails = false ->
                 (1 <= count_summary x new_events)%nat ->
                 dict_count x sent_emails' = 1%nat).
Proof.
  induction new_events as [|e rest IH]; intros sent_emails w Hsent Hfix.
  - exists sent_emails, w. simpl. unfold ret, count_summary. simpl.
    repeat split; auto using app_nil_r. intros x _ H. lia.
  - simpl. unfold bind, send_mail_for_event. rewrite Hsent.
    destruct (Hfix e (or_introl eq_refl)) as [dt Hdt].
    destruct (isoformat_of_fixed _ _ Hdt) as [iso Hiso].
    unfold lift. rewrite Hiso.
    set (w1 := {| ticks := ticks w; mails := S (mails w);
                  ledger_file := ledger_file w;
                  trace := trace w ++ [Dispatch e Sent] |}).
    destruct (IH (dict_set (summary e) iso sent_emails) w1 Hsent)
      as (d' & w' & Hrun & Hf & Htr & Hone & Hnew).
    { intros e' He'. apply Hfix. now right. }
    exists d', w'. rewrite Hrun.
    split; [reflexivity|]. split; [exact Hf|].
    split; [rewrite Htr; subst w1; simpl; now rewrite <- app_assoc|].
    split.
    + intros x Hx. apply Hone. now apply dict_count_set_one.
    + intros x Hx Hcount. unfold count_summary in Hcount. simpl in Hcount.
      destruct (String.eqb (summary e) x) eqn:Hex.
      * apply String.eqb_eq in Hex. subst x. apply Hone.
        now rewrite dict_count_set_same, Hx.
      * apply Hnew; [|exact Hcount].
        rewrite dict_mem_set, Hx.
        apply String.eqb_neq in Hex.
        assert (Hne : String.eqb x (summary e) = false)
          by (apply String.eqb_neq; congruence).
        now rewrite Hne.
Qed.

End Phases.

(** ** The properties of the pipeline *)


(** C10 -- When expansion yields no instance, [run_task] returns at
    once: the trace of the run holds the HTTP request alone and the
    ledger file is as before; in particular an absent file stays
    absent. *)
Theorem empty_expansion_leaves_ledger (E : env) (t m : nat)
        (f : option string) (w1 : world) :
  get_calendar_events E (fresh t m f) = (Ok [], w1) ->
  run_task E (fresh t m f) = (Ok tt, w1) /\
  ledger_file w1 = f /\
  trace w1 = [HttpGet] /\
  existsb touches_ledger (trace w1) = false.
Proof.
  intros Hget. rewrite run_task_unfold, Hget.
  destruct (get_calendar_events_frame E _ _ _ Hget) as (Hf & Htr & _).
  simpl in Hf, Htr. rewrite Htr. auto.
Qed.

(** C5 -- Every instance the expander returns has a start that
    normalizes and is not before the clock reading taken for it during
    this expansion (line 83); when the clock never runs backwards, the
    start is not before the reading the expansion began with, the lower
    end of the expansion window. *)
Theorem expander_drops_past_instances (E : env) (w w' : world)
        (events : list event) (e : event) :
  get_calendar_events E w = (Ok events, w') ->
  In e events ->
  exists dt,
    fix_datetime (dtstart e) = Ok dt /\
    (exists k, (ticks w <= k < ticks w')%nat /\ (clock E k <= timestamp dt)%Z) /\
    ((forall i j, (i <= j)%nat -> (clock E i <= clock E j)%Z) ->
     (clock E (ticks w) <= timestamp dt)%Z).
Proof.
  unfold get_calendar_events, bind, perform, now. simpl.
  destruct (requests_get E) as [|content]; [discriminate|].
  destruct (from_ical E content) as [cal|]; [|discriminate].
  destruct (between E cal _ _) as [cs|]; [|discriminate].
  destruct (expand_loop_spec E cs (tick (tick (log_effect HttpGet w))))
    as (evs & w1 & Hrun & _ & Hsound & _).
  rewrite Hrun. intros [= <- <-] Hin.
  destruct (Hsound e Hin) as (c & dt & k & _ & _ & Hfix & Hk & Hle).
  simpl in Hk. exists dt. split; [exact Hfix|]. split.
  - exists k. split; [lia | exact Hle].
  - intros Hmono. specialize (Hmono (ticks w) k). lia.
Qed.



(** C4 -- When the ledger that is loaded holds identity [x], the run
    dispatches for no instance of summary [x], however many of them the
    feed expands to. *)
Theorem ledger_entry_suppresses_dispatch (E : env) (t m : nat)
        (text : string) (d : dict) (x : string) :
  json_load E text = Some d ->
  dict_mem x d = true ->
  dispatches_for x (trace (snd (run_task E (fresh t m (Some text))))) = 0%nat /\
  forall e r,
    In (Dispatch e r) (trace (snd (run_task E (fresh t m (Some text))))) ->
    summary e <> x.
Proof.
  intros Hload Hmem.
  assert (Hall : forall e r,
            In (Dispatch e r) (trace (snd (run_task E (fresh t m (Some text))))) ->
            summary e <> x).
  { assert (Hl : loaded_ledger E (Some text) = d)
      by (simpl; now rewrite Hload).
    intros e r. rewrite run_task_unfold.
    change (ledger_file (fresh t m (Some text))) with (Some text).
    rewrite Hl.
    destruct (get_calendar_events E (fresh t m (Some text)))
      as [[[|e0 es]|y] w1] eqn:Hget;
      destruct (get_calendar_events_frame E _ _ _ Hget) as (Hf & Htr & _);
      simpl in Hf, Htr.
    - cbn [snd]. rewrite Htr. intros [H|[]]; discriminate H.
    - rewrite load_sent_emails_spec, Hf. cbn [snd].
      rewrite notify_new_events_unfold.
      set (w2 := log_effect ReadLedger w1).
      assert (Htr3 : trace (after_kept E (e0 :: es) w2) = [HttpGet; ReadLedger]).
      { destruct (upcoming_loop_spec E (e0 :: es) w2) as (_ & (_ & H & _) & _).
        rewrite H. subst w2. simpl. now rewrite Htr. }
      destruct (new_events_of (kept E (e0 :: es) w2) d) as [|n ns] eqn:Hnew.
      + cbn [snd]. rewrite Htr3. intros [H|[H|[]]]; discriminate H.
      + destruct (notify_loop_spec E (n :: ns) d (after_kept E (e0 :: es) w2))
          as (r' & w4 & ds & Hrun & _ & _ & Htr4 & Hds & _).
        rewrite Hrun.
        assert (Hin : In (Dispatch e r) (trace w4) -> summary e <> x).
        { rewrite Htr4, Htr3. intros H. apply in_app_or in H.
          destruct H as [[H|[H|[]]]|H]; try discriminate H.
          destruct (Hds _ H) as (e' & o & [= <- <-] & He').
          rewrite <- Hnew in He'.
          apply new_events_of_absent in He'. destruct He' as [_ Habs].
          congruence. }
        destruct r' as [s'|y]; cbn [snd write_sent_emails trace].
        * intros H. apply in_app_or in H. destruct H as [H|[H|[]]].
          -- now apply Hin.
          -- discriminate H.
        * exact Hin.
    - cbn [snd]. rewrite Htr. intros [H|[]]; discriminate H. }
  split; [|exact Hall].
  unfold dispatches_for, count_summary.
  destruct (filter (fun e => String.eqb (summary e) x)
              (dispatched (trace (snd (run_task E (fresh t m (Some text)))))))
    as [|e l] eqn:Hfilter; [reflexivity|].
  assert (He : In e (filter (fun e => String.eqb (summary e) x)
                       (dispatched (trace (snd (run_task E (fresh t m (Some text))))))))
    by (rewrite Hfilter; now left).
  apply filter_In in He. destruct He as [He Hx].
  apply In_dispatched in He. destruct He as [r Hr].
  apply String.eqb_eq in Hx. now destruct (Hall e r Hr).
Qed.


(** C9 -- Whatever a run writes to the ledger file holds every pair of
    the ledger it loaded, with the value it had: a run adds entries and
    removes or changes none of those it found. *)
Theorem run_keeps_loaded_entries (E : env) (t m : nat) (f : option string)
        (d' : dict) (k v : string) :
  In (WriteLedger d') (trace (snd (run_task E (fresh t m f)))) ->
  dict_get k (loaded_ledger E f) = Some v ->
  dict_get k d' = Some v.
Proof.
  rewrite run_task_unfold.
  change (ledger_file (fresh t m f)) with f.
  destruct (get_calendar_events E (fresh t m f))
    as [[[|e0 es]|y] w1] eqn:Hget;
    destruct (get_calendar_events_frame E _ _ _ Hget) as (Hf & Htr & _);
    simpl in Hf, Htr.
  - cbn [snd]. rewrite Htr. intros [H|[]]; discriminate H.
  - rewrite load_sent_emails_spec, Hf. cbn [snd].
    rewrite notify_new_events_unfold.
    set (w2 := match f with
               | Some _ => log_effect ReadLedger w1
               | None => _
               end).
    assert (Htr3 : trace (after_kept E (e0 :: es) w2) = trace w2).
    { now destruct (upcoming_loop_spec E (e0 :: es) w2) as (_ & (_ & H & _) & _). }
    assert (Hold : In (WriteLedger d') (trace w2) ->
                   dict_get k (loaded_ledger E f) = Some v ->
                   dict_get k d' = Some v).
    { subst w2. destruct f as [text|].
      - simpl. rewrite Htr. intros [H|[H|[]]]; discriminate H.
      - intros _ Hk. discriminate Hk. }
    destruct (new_events_of (kept E (e0 :: es) w2) (loaded_ledger E f))
      as [|n ns] eqn:Hnew.
    + cbn [snd]. rewrite Htr3. exact Hold.
    + destruct (notify_loop_spec E (n :: ns) (loaded_ledger E f)
                  (after_kept E (e0 :: es) w2))
        as (r' & w4 & ds & Hrun & _ & _ & Htr4 & Hds & Hkeep).
      rewrite Hrun.
      assert (Hin : In (WriteLedger d') (trace w4) ->
                    dict_get k (loaded_ledger E f) = Some v ->
                    dict_get k d' = Some v).
      { rewrite Htr4, Htr3. intros H. apply in_app_or in H.
        destruct H as [H|H]; [now apply Hold|].
        destruct (Hds _ H) as (e' & o & Habs & _). discriminate Habs. }
      destruct r' as [s'|y]; cbn [snd write_sent_emails trace].
      * intros H Hk. apply in_app_or in H. destruct H as [H|[H|[]]].
        -- now apply Hin.
        -- injection H as <-. rewrite (Hkeep s' eq_refl k); [exact Hk|].
           intros e' He' Heq. rewrite <- Hnew in He'.
           apply new_events_of_absent in He'. destruct He' as [_ Habs].
           unfold dict_mem in Habs. rewrite Heq, Hk in Habs. discriminate.
      * exact Hin.
  - cbn [snd]. rewrite Htr. intros [H|[]]; discriminate H.
Qed.

(** C2, as the code has it -- When the due set is not empty and every
    dispatch for a due event fails, the run still rewrites the ledger
    file (lines 147-148), with the serialization of the ledger it
    loaded: the mapping stored is the one loaded, and the text of the
    file is what it was whenever that text was the serialization of the
    mapping it decodes to, as is every file the program wrote itself. *)
Theorem failed_dispatches_rewrite_loaded_ledger (E : env) (t m : nat)
        (f : option string) :
  due_events E (fresh t m f) <> [] ->
  (forall n e, In e (due_events E (fresh t m f)) -> smtp E n e = Failed) ->
  ledger_file (snd (run_task E (fresh t m f)))
  = Some (json_dump E (loaded_ledger E f)) /\
  In (WriteLedger (loaded_ledger E f)) (trace (snd (run_task E (fresh t m f)))) /\
  (forall d, f = Some (json_dump E d) ->
             json_load E (json_dump E d) = Some d ->
             ledger_file (snd (run_task E (fresh t m f))) = f).
Proof.
  rewrite due_events_unfold, run_task_unfold.
  change (ledger_file (fresh t m f)) with f.
  destruct (get_calendar_events E (fresh t m f))
    as [[[|e0 es]|y] w1] eqn:Hget; try (intros H; now destruct H).
  intros Hdue Hfail. rewrite notify_new_events_unfold.
  destruct (new_events_of (kept E (e0 :: es) (snd (load_sent_emails E w1)))
              (loaded_ledger E f)) as [|n ns] eqn:Hnew;
    [now destruct Hdue|].
  destruct (notify_loop_all_failed E (n :: ns) (loaded_ledger E f)
              (after_kept E (e0 :: es) (snd (load_sent_emails E w1))) Hfail)
    as (w4 & Hloop & _ & _).
  rewrite Hloop. cbn [snd write_sent_emails ledger_file trace].
  split; [reflexivity|]. split; [apply in_or_app; right; now left|].
  intros d -> Hrt. simpl. now rewrite Hrt.
Qed.



(** C1, as the code has it -- When the due set holds two or more
    instances of one summary and every dispatch is delivered, the run
    returns, [send_mail_for_event] is called once for each due
    instance, in order, so the identity is dispatched as many times as
    due instances carry it; the identity was no key of the ledger
    loaded, and the ledger written at the end of the run holds exactly
    one entry for it. *)
Theorem each_due_instance_is_dispatched (E : env) (t m : nat)
        (f : option string) (x : string) :
  (forall n e, smtp E n e = Sent) ->
  (2 <= count_summary x (due_events E (fresh t m f)))%nat ->
  fst (run_task E (fresh t m f)) = Ok tt /\
  dict_mem x (loaded_ledger E f) = false /\
  dispatched (trace (snd (run_task E (fresh t m f))))
  = due_events E (fresh t m f) /\
  dispatches_for x (trace (snd (run_task E (fresh t m f))))
  = count_summary x (due_events E (fresh t m f)) /\
  exists d',
    ledger_file (snd (run_task E (fresh t m f))) = Some (json_dump E d') /\
    In (WriteLedger d') (trace (snd (run_task E (fresh t m f)))) /\
    dict_count x d' = 1%nat.
Proof.
  intros Hsent. unfold dispatches_for.
  rewrite due_events_unfold, run_task_unfold.
  change (ledger_file (fresh t m f)) with f.
  destruct (get_calendar_events E (fresh t m f))
    as [[[|e0 es]|y] w1] eqn:Hget;
    try (unfold count_summary; simpl; lia).
  destruct (get_calendar_events_frame E _ _ _ Hget) as (Hf & Htr & _).
  simpl in Hf, Htr.
  rewrite notify_new_events_unfold.
  set (w2 := snd (load_sent_emails E w1)).
  assert (Htr2 : dispatched (trace w2) = []).
  { subst w2. rewrite load_sent_emails_spec, Hf.
    destruct f; simpl; rewrite Htr; reflexivity. }
  assert (Htr3 : trace (after_kept E (e0 :: es) w2) = trace w2).
  { now destruct (upcoming_loop_spec E (e0 :: es) w2) as (_ & (_ & H & _) & _). }
  destruct (new_events_of (kept E (e0 :: es) w2) (loaded_ledger E f))
    as [|n ns] eqn:Hnew; [unfold count_summary; simpl; lia|].
  intros Hcount.
  assert (Habsent : dict_mem x (loaded_ledger E f) = false).
  { destruct (count_summary_In x (n :: ns)) as (e & He & <-); [lia|].
    rewrite <- Hnew in He. now apply new_events_of_absent in He. }
  destruct (notify_loop_all_sent E (n :: ns) (loaded_ledger E f)
              (after_kept E (e0 :: es) w2) Hsent)
    as (d' & w4 & Hloop & _ & Htr4 & _ & Hone).
  { intros e He. rewrite <- Hnew in He.
    apply new_events_of_absent in He. destruct He as [He _].
    destruct (upcoming_loop_spec E (e0 :: es) w2) as (_ & _ & Hkept).
    now apply Hkept. }
  rewrite Hloop. cbn [fst snd write_sent_emails ledger_file trace].
  assert (Hdisp : dispatched (trace w4 ++ [WriteLedger d']) = n :: ns).
  { rewrite Htr4, Htr3, !dispatched_app, Htr2, dispatched_map. simpl.
    now rewrite app_nil_r. }
  rewrite Hdisp.
  split; [reflexivity|]. split; [exact Habsent|].
  split; [reflexivity|]. split; [reflexivity|].
  exists d'. split; [reflexivity|].
  split; [apply in_or_app; right; now left|].
  apply Hone; [exact Habsent | lia].
Qed.

(** ** Concrete runs *)

Section Runs.

Import Examples.

Local Open Scope string_scope.

(** Two imminent instances share the summary Standup, the ledger file
    holds the empty object and every mail is delivered: the run calls
    [send_mail_for_event] for both, because the list of line 137 is
    computed before the loop and the entry the first delivery adds to
    [sent_emails] is not consulted; the ledger written holds one entry
    for the summary, with the start of the second instance. *)
Example two_standups_run :
  let w0 := fresh 0 0 (Some "{}") in
  let w' := snd (run_task env_two_standups w0) in
  let first := event_of standup_1h in
  let second := event_of standup_3h in
  summary first = summary second /\
  loaded_ledger env_two_standups (Some "{}") = [] /\
  (forall n e, smtp env_two_standups n e = Sent) /\
  due_events env_two_standups w0 = [first; second] /\
  trace w' = [HttpGet; ReadLedger; Dispatch first Sent; Dispatch second Sent;
              WriteLedger [("Standup", "2025-01-01T03:00:00")]] /\
  dispatches_for "Standup" (trace w') = 2%nat /\
  ledger_file w' = Some (PyJson.dumps [("Standup", "2025-01-01T03:00:00")]) /\
  dict_count "Standup" [("Standup", "2025-01-01T03:00:00")] = 1%nat.
Proof.
  cbv zeta. repeat split; reflexivity.
Qed.

(** C1, refuted as stated -- With the two imminent instances of
    Standup, a ledger that does not know the summary and every mail
    delivered, the identity is dispatched twice, not once. *)
Lemma same_summary_is_dispatched_twice :
  ~ (forall (E : env) (t m : nat) (f : option string) (x : string),
       (forall n e, smtp E n e = Sent) ->
       (2 <= count_summary x (due_events E (fresh t m f)))%nat ->
       dict_mem x (loaded_ledger E f) = false ->
       dispatches_for x (trace (snd (run_task E (fresh t m f)))) = 1%nat).
Proof.
  intros H.
  specialize (H env_two_standups 0%nat 0%nat (Some "{}") "Standup").
  assert (Htwice : dispatches_for "Standup"
                     (trace (snd (run_task env_two_standups
                                    (fresh 0 0 (Some "{}"))))) = 2%nat)
    by reflexivity.
  rewrite Htwice in H.
  assert (Habs : 2%nat = 1%nat).
  { apply H.
    - intros n e. reflexivity.
    - vm_compute. auto.
    - reflexivity. }
  discriminate Habs.
Qed.

(** The same run, for the amended statement. *)
Lemma each_due_instance_is_dispatched_witness :
  (forall n e, smtp env_two_standups n e = Sent) /\
  (2 <= count_summary "Standup"
          (due_events env_two_standups (fresh 0 0 (Some "{}"))))%nat /\
  fst (run_task env_two_standups (fresh 0 0 (Some "{}"))) = Ok tt /\
  dict_mem "Standup" (loaded_ledger env_two_standups (Some "{}")) = false /\
  dispatched (trace (snd (run_task env_two_standups (fresh 0 0 (Some "{}")))))
  = due_events env_two_standups (fresh 0 0 (Some "{}")) /\
  dispatches_for "Standup"
    (trace (snd (run_task env_two_standups (fresh 0 0 (Some "{}")))))
  = count_summary "Standup"
      (due_events env_two_standups (fresh 0 0 (Some "{}"))) /\
  exists d',
    ledger_file (snd (run_task env_two_standups (fresh 0 0 (Some "{}"))))
    = Some (json_dump env_two_standups d') /\
    In (WriteLedger d')
       (trace (snd (run_task env_two_standups (fresh 0 0 (Some "{}"))))) /\
    dict_count "Standup" d' = 1%nat.
Proof.
  assert (Hsent : forall n e, smtp env_two_standups n e = Sent)
    by (intros n e; reflexivity).
  assert (Htwo : (2 <= count_summary "Standup"
                        (due_events env_two_standups (fresh 0 0 (Some "{}"))))%nat)
    by (vm_compute; auto).
  split; [exact Hsent|]. split; [exact Htwo|].
  apply (each_due_instance_is_dispatched env_two_standups 0 0 (Some "{}")
           "Standup" Hsent Htwo).
Defined.

(** C2, refuted as stated -- The ledger file holds text that is no
    JSON, one instance is due and its mail fails: the run writes the
    empty object over the file. *)
Lemma failed_dispatches_change_the_file :
  ~ (forall (E : env) (t m : nat) (f : option string),
       due_events E (fresh t m f) <> [] ->
       (forall n e, In e (due_events E (fresh t m f)) -> smtp E n e = Failed) ->
       ledger_file (snd (run_task E (fresh t m f))) = f).
Proof.
  intros H.
  specialize (H env_mail_down 0%nat 0%nat (Some "not json")).
  assert (Hfile : ledger_file (snd (run_task env_mail_down
                                      (fresh 0 0 (Some "not json"))))
                  = Some "{}") by reflexivity.
  rewrite Hfile in H.
  assert (Habs : Some "{}" = Some "not json").
  { apply H.
    - vm_compute. discriminate.
    - intros n e _. reflexivity. }
  discriminate Habs.
Qed.

(** A ledger file that decodes, written without the space that
    [json.dump] puts after the colon, is rewritten with it. *)
Example compact_ledger_is_reformatted :
  let text := "{" ++ q ++ "Review" ++ q ++ ":" ++ q ++ "x" ++ q ++ "}" in
  PyJson.loads text = Some [("Review", "x")] /\
  ledger_file (snd (run_task env_mail_down (fresh 0 0 (Some text))))
  = Some ("{" ++ q ++ "Review" ++ q ++ ": " ++ q ++ "x" ++ q ++ "}").
Proof.
  split; reflexivity.
Qed.



(** A feed without events, on a system whose ledger file is absent. *)
Lemma empty_expansion_leaves_ledger_witness :
  get_calendar_events env_no_events (fresh 0 0 None)
  = (Ok [], expanded_world 2 None) /\
  (run_task env_no_events (fresh 0 0 None) = (Ok tt, expanded_world 2 None) /\
   ledger_file (expanded_world 2 None) = None /\
   trace (expanded_world 2 None) = [HttpGet] /\
   existsb touches_ledger (trace (expanded_world 2 None)) = false).
Proof.
  split; [reflexivity|].
  apply (empty_expansion_leaves_ledger env_no_events 0 0 None). reflexivity.
Defined.

(** An occurrence that began a minute ago is dropped; the one kept
    starts after the readings of the clock. *)
Lemma expander_drops_past_instances_witness :
  get_calendar_events env_one_past (fresh 0 0 None)
  = (Ok [event_of standup_1h], expanded_world 4 None) /\
  In (event_of standup_1h) [event_of standup_1h] /\
  exists dt,
    fix_datetime (dtstart (event_of standup_1h)) = Ok dt /\
    (exists k, (0 <= k < 4)%nat /\ (clock env_one_past k <= timestamp dt)%Z) /\
    ((forall i j, (i <= j)%nat -> (clock env_one_past i <= clock env_one_past j)%Z) ->
     (clock env_one_past 0 <= timestamp dt)%Z).
Proof.
  split; [reflexivity|]. split; [now left|].
  apply (expander_drops_past_instances env_one_past (fresh 0 0 None)
           (expanded_world 4 None) [event_of standup_1h] (event_of standup_1h)).
  - reflexivity.
  - now left.
Defined.


(** The first and the third instance are in the output, in order. *)
Example expander_skips_the_broken_component :
  get_calendar_events env_one_broken (fresh 0 0 None)
  = (Ok [event_of standup_1h; event_of review_23h], expanded_world 4 None).
Proof. reflexivity. Qed.


Example window_run :
  kept env_reviews
    [event_of review_25h; event_of review_24h; event_of review_23h]
    (fresh 0 0 None)
  = [event_of review_23h].
Proof. reflexivity. Qed.

(** The ledger knows Standup; two occurrences of it are imminent and
    none is dispatched. *)
Lemma ledger_entry_suppresses_dispatch_witness :
  json_load env_two_standups (ledger_with "Standup" "2024-12-31T01:00:00")
  = Some [("Standup", "2024-12-31T01:00:00")] /\
  dict_mem "Standup" [("Standup", "2024-12-31T01:00:00")] = true /\
  dispatches_for "Standup"
    (trace (snd (run_task env_two_standups
                   (fresh 0 0 (Some (ledger_with "Standup" "2024-12-31T01:00:00"))))))
  = 0%nat /\
  forall e r,
    In (Dispatch e r)
       (trace (snd (run_task env_two_standups
                      (fresh 0 0 (Some (ledger_with "Standup" "2024-12-31T01:00:00")))))) ->
    summary e <> "Standup".
Proof.
  split; [reflexivity|]. split; [reflexivity|].
  apply (ledger_entry_suppresses_dispatch env_two_standups 0 0
           (ledger_with "Standup" "2024-12-31T01:00:00")
           [("Standup", "2024-12-31T01:00:00")] "Standup");
    reflexivity.
Defined.


Example corrupt_ledger_run :
  run_task env_two_standups (fresh 0 0 (Some "not json"))
  = (Ok tt,
     {| ticks := 6; mails := 2;
        ledger_file := Some (ledger_with "Standup" "2025-01-01T03:00:00");
        trace := [HttpGet; ReadLedger;
                  Dispatch (event_of standup_1h) Sent;
                  Dispatch (event_of standup_3h) Sent;
                  WriteLedger [("Standup", "2025-01-01T03:00:00")]] |}).
Proof. reflexivity. Qed.

(** The ledger knows Review; Standup is new and delivered: the ledger
    written holds the entry of Review as it was. *)
Lemma run_keeps_loaded_entries_witness :
  In (WriteLedger [("Review", "2024-12-25T23:00:00");
                   ("Standup", "2025-01-01T01:00:00")])
     (trace (snd (run_task env_known_review
                    (fresh 0 0 (Some (ledger_with "Review" "2024-12-25T23:00:00")))))) /\
  dict_get "Review"
    (loaded_ledger env_known_review
       (Some (ledger_with "Review" "2024-12-25T23:00:00")))
  = Some "2024-12-25T23:00:00" /\
  dict_get "Review" [("Review", "2024-12-25T23:00:00");
                     ("Standup", "2025-01-01T01:00:00")]
  = Some "2024-12-25T23:00:00".
Proof.
  assert (Hin : In (WriteLedger [("Review", "2024-12-25T23:00:00");
                                 ("Standup", "2025-01-01T01:00:00")])
                   (trace (snd (run_task env_known_review
                                  (fresh 0 0 (Some (ledger_with "Review"
                                                      "2024-12-25T23:00:00")))))))
    by (right; right; right; left; reflexivity).
  split; [exact Hin|]. split; [reflexivity|].
  apply (run_keeps_loaded_entries env_known_review 0 0
           (Some (ledger_with "Review" "2024-12-25T23:00:00"))
           [("Review", "2024-12-25T23:00:00"); ("Standup", "2025-01-01T01:00:00")]
           "Review" "2024-12-25T23:00:00" Hin).
  reflexivity.
Defined.

(** The ledger file holds the empty object as the program writes it,
    one instance is due and its mail fails: the file is rewritten with
    the same text. *)
Lemma failed_dispatches_rewrite_loaded_ledger_witness :
  due_events env_mail_down (fresh 0 0 (Some "{}")) <> [] /\
  (forall n e, In e (due_events env_mail_down (fresh 0 0 (Some "{}"))) ->
               smtp env_mail_down n e = Failed) /\
  ledger_file (snd (run_task env_mail_down (fresh 0 0 (Some "{}"))))
  = Some (json_dump env_mail_down (loaded_ledger env_mail_down (Some "{}"))) /\
  In (WriteLedger (loaded_ledger env_mail_down (Some "{}")))
     (trace (snd (run_task env_mail_down (fresh 0 0 (Some "{}"))))) /\
  (forall d, Some "{}" = Some (json_dump env_mail_down d) ->
             json_load env_mail_down (json_dump env_mail_down d) = Some d ->
             ledger_file (snd (run_task env_mail_down (fresh 0 0 (Some "{}"))))
             = Some "{}").
Proof.
  assert (Hdue : due_events env_mail_down (fresh 0 0 (Some "{}")) <> [])
    by (vm_compute; discriminate).
  assert (Hfail : forall n e,
             In e (due_events env_mail_down (fresh 0 0 (Some "{}"))) ->
             smtp env_mail_down n e = Failed)
    by (intros n e _; reflexivity).
  split; [exact Hdue|]. split; [exact Hfail|].
  apply (failed_dispatches_rewrite_loaded_ledger env_mail_down 0 0 (Some "{}")
           Hdue Hfail).
Defined.

Example failed_dispatch_run :
  run_task env_mail_down (fresh 0 0 (Some "{}"))
  = (Ok tt,
     {| ticks := 4; mails := 1; ledger_file := Some "{}";
        trace := [HttpGet; ReadLedger;
                  Dispatch (event_of standup_1h) Failed;
                  WriteLedger []] |}).
Proof. reflexivity. Qed.

End Runs.

(** ** Runs in full *)

Section Shape.

Variable E : env.

Lemma get_calendar_events_raises (w w' : world) (x : exn) :
  get_calendar_events E w = (Raise x, w') ->
  x = FetchError \/ x = CalendarError.
Proof.
  unfold get_calendar_events, bind, perform, now, raise. simpl.
  destruct (requests_get E) as [|content]; [intros [= <- _]; now left|].
  destruct (from_ical E content) as [cal|]; [|intros [= <- _]; now right].
  destruct (between E cal _ _) as [cs|]; [|intros [= <- _]; now right].
  rewrite expand_loop_expanded. discriminate.
Qed.

(** The world lines 107-118 leave. *)
Lemma load_sent_emails_world (w : world) :
  trace (snd (load_sent_emails E w)) = trace w ++ load_effects (ledger_file w) /\
  ledger_file (snd (load_sent_emails E w)) = ledger_after_load E (ledger_file w) /\
  ticks (snd (load_sent_emails E w)) = ticks w /\
  mails (snd (load_sent_emails E w)) = mails w.
Proof.
  rewrite load_sent_emails_spec. unfold load_effects, ledger_after_load.
  destruct (ledger_file w) as [text|] eqn:Hf; simpl; rewrite ?Hf; auto.
Qed.

Lemma last_delivered_cons_sent (k : string) (e : event) (ds : list effect) :
  last_delivered k (Dispatch e Sent :: ds)
  = match last_delivered k ds with
    | Some e' => Some e'
    | None => if String.eqb (summary e) k then Some e else None
    end.
Proof. reflexivity. Qed.

Lemma last_delivered_cons_failed (k : string) (e : event) (ds : list effect) :
  last_delivered k (Dispatch e Failed :: ds) = last_delivered k ds.
Proof. simpl. now destruct (last_delivered k ds). Qed.

(** What the dispatch loop does on events whose start normalizes: it
    calls [send_mail_for_event] on the events of its list in order,
    until the list ends or a call raises; the dict it returns maps a
    key to the text of the last event delivered under it, and is the
    given dict elsewhere. *)
Lemma notify_loop_outcomes (new_events : list event) :
  forall (sent_emails : dict) (w : world),
    (forall e, In e new_events -> exists dt, fix_datetime (dtstart e) = Ok dt) ->
    exists r w' ds,
      notify_loop E new_events sent_emails w = (r, w') /\
      ledger_file w' = ledger_file w /\ ticks w' = ticks w /\
      trace w' = trace w ++ ds /\
      forallb is_dispatch ds = true /\
      ((exists d', r = Ok d' /\
                   dispatched ds = new_events /\
                   (forall e, ~ In (Dispatch e Crashed) ds) /\
                   (forall k, dict_get k d'
                              = match last_delivered k ds with
                                | Some e => iso_of e
                                | None => dict_get k sent_emails
                                end)) \/
       (exists pre e rest, r = Raise DispatchError /\
                           ds = pre ++ [Dispatch e Crashed] /\
                           forallb is_dispatch pre = true /\
                           new_events = dispatched pre ++ e :: rest /\
                           (forall e', ~ In (Dispatch e' Crashed) pre))).
Proof.
  induction new_events as [|e rest IH]; intros sent_emails w Hfix.
  - exists (Ok sent_emails), w, []. simpl. unfold ret.
    repeat split; auto using app_nil_r.
    left. exists sent_emails. repeat split; auto.
  - assert (Hrest : forall e', In e' rest ->
                      exists dt, fix_datetime (dtstart e') = Ok dt)
      by (intros e' He'; apply Hfix; now right).
    destruct (Hfix e (or_introl eq_refl)) as [dt Hdt].
    destruct (isoformat_of_fixed _ _ Hdt) as [iso Hiso].
    assert (Hiso_of : iso_of e = Some iso) by (unfold iso_of; now rewrite Hiso).
    simpl. unfold bind, send_mail_for_event.
    set (w1 := {| ticks := ticks w; mails := S (mails w);
                  ledger_file := ledger_file w;
                  trace := trace w ++ [Dispatch e (smtp E (mails w) e)] |}).
    assert (Htrace : forall (w' : world) (ds : list effect),
               trace w' = trace w1 ++ ds ->
               trace w' = trace w ++ Dispatch e (smtp E (mails w) e) :: ds).
    { intros w' ds H. rewrite H. subst w1. simpl. now rewrite <- app_assoc. }
    assert (Hw1f : ledger_file w1 = ledger_file w) by reflexivity.
    assert (Hw1t : ticks w1 = ticks w) by reflexivity.
    clearbody w1.
    assert (Hgo : forall (o : outcome) (d : dict),
               smtp E (mails w) e = o -> o <> Crashed ->
               (forall k, dict_get k d
                          = match (match o with
                                   | Sent => if String.eqb (summary e) k
                                             then Some e else None
                                   | _ => None
                                   end) with
                            | Some e' => iso_of e'
                            | None => dict_get k sent_emails
                            end) ->
               (forall k ds, last_delivered k (Dispatch e o :: ds)
                             = match last_delivered k ds with
                               | Some e' => Some e'
                               | None => match o with
                                         | Sent => if String.eqb (summary e) k
                                                   then Some e else None
                                         | _ => None
                                         end
                               end) ->
               exists r w' ds,
                 notify_loop E rest d w1 = (r, w') /\
                 ledger_file w' = ledger_file w /\ ticks w' = ticks w /\
                 trace w' = trace w ++ ds /\
                 forallb is_dispatch ds = true /\
                 ((exists d', r = Ok d' /\
                              dispatched ds = e :: rest /\
                              (forall e0, ~ In (Dispatch e0 Crashed) ds) /\
                              (forall k, dict_get k d'
                                         = match last_delivered k ds with
                                           | Some e0 => iso_of e0
                                           | None => dict_get k sent_emails
                                           end)) \/
                  (exists pre e0 rest0, r = Raise DispatchError /\
                                        ds = pre ++ [Dispatch e0 Crashed] /\
                                        forallb is_dispatch pre = true /\
                                        e :: rest = dispatched pre ++ e0 :: rest0 /\
                                        (forall e', ~ In (Dispatch e' Crashed) pre)))).
    { intros o d Ho Hnc Hd Hlast.
      destruct (IH d w1 Hrest)
        as (r & w' & ds & Hrun & Hf & Ht & Htr & Hall & Hcases).
      exists r, w', (Dispatch e o :: ds).
      split; [exact Hrun|]. split; [congruence|]. split; [congruence|].
      split; [rewrite <- Ho; now apply Htrace|].
      split; [exact Hall|].
      destruct Hcases as [(d' & -> & Hdisp & Hno & Hchar)
                         |(pre & e0 & rest0 & -> & -> & Hpre & Hnew & Hno)].
      - left. exists d'. split; [reflexivity|].
        split; [simpl; now rewrite Hdisp|]. split.
        + intros e0 [H|H]; [injection H as _ H; now apply Hnc | now apply (Hno e0)].
        + intros k. rewrite Hchar, Hlast.
          destruct (last_delivered k ds); [reflexivity | apply Hd].
      - right. exists (Dispatch e o :: pre), e0, rest0.
        split; [reflexivity|]. split; [reflexivity|].
        split; [exact Hpre|]. split; [simpl; now rewrite Hnew|].
        intros e' [H|H]; [injection H as _ H; now apply Hnc | now apply (Hno e')]. }
    destruct (smtp E (mails w) e) eqn:Hout.
    + unfold lift. rewrite Hiso.
      apply (Hgo Sent (dict_set (summary e) iso sent_emails) eq_refl);
        [discriminate | | reflexivity].
      intros k. destruct (String.eqb (summary e) k) eqn:Hk.
      * apply String.eqb_eq in Hk. subst k.
        now rewrite dict_get_set_same, Hiso_of.
      * apply String.eqb_neq in Hk. apply dict_get_set_other. congruence.
    + apply (Hgo Failed sent_emails eq_refl); [discriminate | reflexivity |].
      intros k ds. reflexivity.
    + exists (Raise DispatchError), w1, [Dispatch e Crashed].
      split; [reflexivity|]. split; [exact Hw1f|]. split; [exact Hw1t|].
      split; [apply (Htrace w1 []); now rewrite app_nil_r|].
      split; [reflexivity|].
      right. exists [], e, rest. repeat split; auto.
Qed.

(** Every run has one of the five shapes. *)
Lemma run_task_shape (t m : nat) (f : option string) :
  run_shape E f (fst (get_calendar_events E (fresh t m f)))
            (due_events E (fresh t m f))
            (fst (run_task E (fresh t m f)))
            (snd (run_task E (fresh t m f))).
Proof.
  rewrite due_events_unfold, run_task_unfold.
  change (ledger_file (fresh t m f)) with f.
  destruct (get_calendar_events E (fresh t m f))
    as [[[|e0 es]|x] w1] eqn:Hget;
    destruct (get_calendar_events_frame E _ _ _ Hget) as (Hf & Htr & _);
    simpl in Hf, Htr; cbn [fst].
  - apply NoInstance; auto.
  - rewrite notify_new_events_unfold.
    destruct (load_sent_emails_world w1) as (Htr2 & Hf2 & _).
    rewrite Hf in Htr2, Hf2. rewrite Htr in Htr2. simpl in Htr2.
    set (w2 := snd (load_sent_emails E w1)) in *.
    destruct (upcoming_loop_spec E (e0 :: es) w2)
      as (_ & (Hf3 & Htr3 & _) & Hkept).
    rewrite Hf2 in Hf3. rewrite Htr2 in Htr3.
    destruct (new_events_of (kept E (e0 :: es) w2) (loaded_ledger E f))
      as [|n ns] eqn:Hnew.
    + apply (NothingDue E f _ _ e0 es); auto.
    + destruct (notify_loop_outcomes (n :: ns) (loaded_ledger E f)
                  (after_kept E (e0 :: es) w2))
        as (r & w4 & ds & Hrun & Hf4 & _ & Htr4 & Hall & Hcases).
      { intros e He. rewrite <- Hnew in He.
        apply new_events_of_absent in He. destruct He as [He _].
        now apply Hkept. }
      rewrite Hrun. rewrite Hf3 in Hf4. rewrite Htr3 in Htr4.
      destruct Hcases as [(d' & -> & Hdisp & Hno & Hchar)
                         |(pre & e1 & rest1 & -> & -> & Hpre & Hdue & Hno)].
      * cbn [fst snd write_sent_emails].
        apply (Notified E f _ (n :: ns) e0 es ds d'); auto.
        -- discriminate.
        -- cbn [trace]. rewrite Htr4. simpl. now rewrite <- app_assoc.
      * cbn [fst snd].
        apply (DispatchRaised E f _ (n :: ns) e0 es pre e1 rest1); auto.
  - apply FeedFailed; auto.
    eapply get_calendar_events_raises; eassumption.
Qed.

End Shape.

(** ** Start-up *)

Lemma filter_nil_iff {A : Type} (p : A -> bool) (l : list A) :
  filter p l = [] <-> forall x, In x l -> p x = false.
Proof.
  induction l as [|a l IH]; simpl.
  - split; [intros _ x [] | reflexivity].
  - destruct (p a) eqn:Hp.
    + split; [discriminate|]. intros H.
      specialize (H a (or_introl eq_refl)). congruence.
    + rewrite IH. split.
      * intros H x [<-|Hx]; auto.
      * intros H x Hx. apply H. now right.
Qed.

Lemma unset_false_iff (vars : environ) (v : string) :
  unset vars v = false <-> exists c s, vars v = Some (String c s).
Proof.
  unfold unset. destruct (vars v) as [[|c s]|].
  - split; [discriminate | intros (c & s & H); discriminate].
  - split; [eauto | reflexivity].
  - split; [discriminate | intros (c & s & H); discriminate].
Qed.

Lemma unset_true_iff (vars : environ) (v : string) :
  unset vars v = true <-> vars v = None \/ vars v = Some EmptyString.
Proof.
  unfold unset. destruct (vars v) as [[|c s]|].
  - split; auto.
  - split; [discriminate | intros [H|H]; discriminate].
  - split; auto.
Qed.

Lemma check_config_true_iff (vars : environ) :
  fst (check_config vars) = true <->
  forall v, In v required_vars -> exists c s, vars v = Some (String c s).
Proof.
  unfold check_config.
  destruct (filter (unset vars) required_vars) as [|a l] eqn:Hfilter; simpl.
  - split; [|reflexivity]. intros _ v Hv. apply unset_false_iff.
    now apply (proj1 (filter_nil_iff _ _) Hfilter).
  - split; [discriminate|]. intros H.
    assert (Ha : In a (filter (unset vars) required_vars))
      by (rewrite Hfilter; now left).
    apply filter_In in Ha. destruct Ha as [Ha Hu].
    apply H in Ha. apply unset_false_iff in Ha. congruence.
Qed.

(** X1 -- [check_config] returns True exactly when each of the seven
    required variables is present with a text that is not empty, and
    then prints nothing; otherwise it prints one line that names
    exactly the required variables that are absent or empty, in the
    order of the list of lines 28-36. *)
Theorem check_config_accepts_exactly_complete (vars : environ) :
  (fst (check_config vars) = true <->
   forall v, In v required_vars -> exists c s, vars v = Some (String c s)) /\
  (fst (check_config vars) = true -> snd (check_config vars) = []) /\
  (fst (check_config vars) = false ->
   exists missing,
     missing <> [] /\
     missing = filter (unset vars) required_vars /\
     snd (check_config vars)
     = [("Missing required environment variables: "
         ++ String.concat ", " missing)%string] /\
     forall v, In v missing <->
               In v required_vars /\
               (vars v = None \/ vars v = Some EmptyString)).
Proof.
  split; [apply check_config_true_iff|].
  unfold check_config.
  destruct (filter (unset vars) required_vars) as [|a l] eqn:Hfilter; simpl.
  - split; [reflexivity | discriminate].
  - split; [discriminate|]. intros _. exists (a :: l).
    split; [discriminate|]. split; [reflexivity|]. split; [reflexivity|].
    intros v. rewrite <- Hfilter, filter_In, unset_true_iff. reflexivity.
Qed.

(** X2 -- The port of CONFIG is the default 587 only when SMTP_PORT is
    absent, and then [check_config] fails: whenever the module loads
    and the check passes, the port is [int] of the text of SMTP_PORT
    and every other entry of CONFIG holds a text that is not empty.
    The module fails to load exactly when SMTP_PORT is present with a
    text [int] rejects; the empty text, where [int] rejects it, is such
    a text. *)
Theorem config_port_default_is_never_used (int : string -> option Z)
        (vars : environ) :
  (CONFIG int vars = None <->
   exists text, vars "SMTP_PORT" = Some text /\ int text = None) /\
  (vars "SMTP_PORT" = None ->
   (exists cfg, CONFIG int vars = Some cfg /\ SMTP_PORT cfg = 587%Z) /\
   fst (check_config vars) = false) /\
  (forall cfg,
     CONFIG int vars = Some cfg ->
     fst (check_config vars) = true ->
     (exists c s, vars "SMTP_PORT" = Some (String c s) /\
                  int (String c s) = Some (SMTP_PORT cfg)) /\
     (exists c s, CALENDAR_URL cfg = Some (String c s)) /\
     (exists c s, SMTP_HOST cfg = Some (String c s)) /\
     (exists c s, SMTP_USER cfg = Some (String c s)) /\
     (exists c s, SMTP_PASSWORD cfg = Some (String c s)) /\
     (exists c s, EMAIL_FROM cfg = Some (String c s)) /\
     (exists c s, EMAIL_TO cfg = Some (String c s))).
Proof.
  split; [|split].
  - unfold CONFIG. destruct (vars "SMTP_PORT") as [text|].
    + destruct (int text) as [port|] eqn:Hint.
      * split; [discriminate|]. intros (text' & [= <-] & H). congruence.
      * split; [eauto | reflexivity].
    + split; [discriminate|]. intros (text & H & _). discriminate.
  - intros Hport. split.
    + unfold CONFIG. rewrite Hport. eexists. split; reflexivity.
    + destruct (fst (check_config vars)) eqn:Hc; [|reflexivity].
      pose proof (proj1 (check_config_true_iff vars) Hc) as Hall.
      destruct (Hall "SMTP_PORT"%string) as (c & s & H);
        [unfold required_vars; simpl; tauto | congruence].
  - intros cfg Hcfg Hc. pose proof (proj1 (check_config_true_iff vars) Hc) as Hall.
    assert (Hin : forall v, In v required_vars ->
                            exists c s, vars v = Some (String c s))
      by exact Hall.
    unfold CONFIG in Hcfg.
    destruct (Hin "SMTP_PORT"%string) as (c & s & Hport);
      [unfold required_vars; simpl; tauto|].
    rewrite Hport in Hcfg.
    destruct (int (String c s)) as [port|] eqn:Hint; [|discriminate].
    injection Hcfg as <-. simpl.
    split; [exists c, s; now split|].
    repeat split; apply Hin; unfold required_vars; simpl; tauto.
Qed.

(** X3 -- [main] runs the pipeline only with a complete configuration.
    When a required variable is absent or empty, the process ends in
    the world it started in, with exit code 1 and the line of
    [check_config], or with the module failing to load: nothing was
    fetched, read, written or sent.  When all are set and the port is a
    number, the first run happens at once; the scheduler is reached
    when that run returns, and when it raises the process dies with
    that error in the world the run left; a feed that cannot be fetched
    at start-up ends the process so, after the request alone. *)
Theorem main_runs_only_when_configured (int : string -> option Z)
        (vars : environ) (E : env) (w : world) :
  ((exists v, In v required_vars /\
              (vars v = None \/ vars v = Some EmptyString)) ->
   main int vars E w = ImportFailed w \/
   main int vars E w = Exited 1 (snd (check_config vars)) w) /\
  ((forall v, In v required_vars -> exists c s, vars v = Some (String c s)) ->
   (exists port, forall text, vars "SMTP_PORT" = Some text ->
                              int text = Some port) ->
   main int vars E w
   = match run_task E w with
     | (Ok _, w') => Scheduling w'
     | (Raise x, w') => Died x w'
     end /\
   (requests_get E = FetchRaises ->
    main int vars E w = Died FetchError (log_effect HttpGet w))).
Proof.
  split.
  - intros (v & Hv & Hunset). unfold main.
    destruct (CONFIG int vars) as [cfg|]; [|now left]. right.
    destruct (check_config vars) as [ok printed] eqn:Hc. simpl.
    destruct ok; [|reflexivity].
    assert (Htrue : fst (check_config vars) = true) by now rewrite Hc.
    pose proof (proj1 (check_config_true_iff vars) Htrue) as Hall.
    destruct (Hall v Hv) as (c & s & H).
    destruct Hunset as [H'|H']; congruence.
  - intros Hall (port & Hport).
    assert (Hc : fst (check_config vars) = true)
      by now apply check_config_true_iff.
    assert (Hmain : main int vars E w
                    = match run_task E w with
                      | (Ok _, w') => Scheduling w'
                      | (Raise x, w') => Died x w'
                      end).
    { unfold main, CONFIG.
      destruct (Hall "SMTP_PORT"%string) as (c & s & Hp);
        [unfold required_vars; simpl; tauto|].
      rewrite Hp, (Hport _ Hp).
      destruct (check_config vars) as [ok printed]. simpl in Hc. now subst ok. }
    split; [exact Hmain|].
    intros Hfetch. rewrite Hmain, run_task_unfold.
    now rewrite (get_calendar_events_fetch_raises E w Hfetch).
Qed.

(** ** The feed *)

(** X4 -- When the feed is fetched but [Calendar.from_ical] or the
    expansion of recurrences raises, [run_task] raises that error to
    its caller; the run has done nothing but the request: the ledger
    file is as before, neither read nor written, and no mail is
    attempted. *)
Theorem unparsable_feed_aborts_run (E : env) (t m : nat) (f : option string)
        (content : string) :
  requests_get E = FetchBody content ->
  from_ical E content = None \/
  (exists cal, from_ical E content = Some cal /\
               between E cal (clock E t) (clock E (S t) + days 30)%Z = None) ->
  fst (run_task E (fresh t m f)) = Raise CalendarError /\
  ledger_file (snd (run_task E (fresh t m f))) = f /\
  trace (snd (run_task E (fresh t m f))) = [HttpGet] /\
  mails (snd (run_task E (fresh t m f))) = m.
Proof.
  intros Hget Hbad. rewrite run_task_unfold.
  unfold get_calendar_events, bind, perform, now, raise. rewrite Hget. simpl.
  destruct Hbad as [Hical|(cal & Hical & Hbetween)]; rewrite Hical.
  - simpl. auto.
  - change (ticks (log_effect HttpGet (fresh t m f))) with t.
    rewrite Hbetween. simpl. auto.
Qed.

(** X5 -- Components that are no VEVENT are ignored by the expander:
    its output and the number of clock readings it takes are those for
    the batch without them. *)
Theorem non_vevent_components_are_ignored (E : env) (cs : list component)
        (w : world) :
  expanded E cs w
  = expanded E (filter (fun c => String.eqb (name c) "VEVENT") cs) w /\
  after_expanded E cs w
  = after_expanded E (filter (fun c => String.eqb (name c) "VEVENT") cs) w.
Proof.
  unfold expanded, after_expanded.
  assert (H : forall acc v,
             expand_loop E cs acc v
             = expand_loop E (filter (fun c => String.eqb (name c) "VEVENT") cs)
                           acc v).
  { induction cs as [|c cs IH]; intros acc v; [reflexivity|].
    simpl. destruct (String.eqb (name c) "VEVENT") eqn:Hname.
    - simpl. destruct (vevent_instance E c v) as [[[e|]|x] v1]; apply IH.
    - unfold vevent_instance at 1. rewrite Hname. unfold ret. apply IH. }
  now rewrite H.
Qed.

(** ** Runs, by their trace *)

Lemma dispatched_load_effects (f : option string) :
  dispatched (load_effects f) = [].
Proof. destruct f; reflexivity. Qed.

Lemma In_load_effects (f : option string) (ef : effect) :
  In ef (load_effects f) ->
  ef = ReadLedger \/ (f = None /\ (ef = MakeDirs \/ ef = WriteLedger [])).
Proof.
  destruct f; simpl; intuition.
Qed.

Lemma forallb_is_dispatch_In (ds : list effect) :
  forallb is_dispatch ds = true ->
  forall ef, In ef ds -> exists e o, ef = Dispatch e o.
Proof.
  intros H ef Hin. rewrite forallb_forall in H. specialize (H ef Hin).
  destruct ef; try discriminate. eauto.
Qed.

Lemma last_delivered_app (k : string) (a b : list effect) :
  last_delivered k (a ++ b)
  = match last_delivered k b with
    | Some e => Some e
    | None => last_delivered k a
    end.
Proof.
  induction a as [|ef a IH]; simpl.
  - now destruct (last_delivered k b).
  - rewrite IH. destruct (last_delivered k b); [reflexivity|].
    reflexivity.
Qed.

Lemma last_delivered_In (k : string) (ds : list effect) (e : event) :
  last_delivered k ds = Some e -> In (Dispatch e Sent) ds /\ summary e = k.
Proof.
  induction ds as [|ef ds IH]; simpl; [discriminate|].
  destruct (last_delivered k ds) as [e'|].
  - intros [= <-]. destruct (IH eq_refl) as [H1 H2]. split; [now right | exact H2].
  - destruct ef as [| | | |e0 [| |]]; try discriminate.
    destruct (String.eqb (summary e0) k) eqn:Hk; [|discriminate].
    intros [= <-]. split; [now left | now apply String.eqb_eq].
Qed.

Lemma delivered_has_last (ds : list effect) (e : event) :
  In (Dispatch e Sent) ds -> exists e', last_delivered (summary e) ds = Some e'.
Proof.
  induction ds as [|ef ds IH]; simpl; [tauto|].
  intros [->|Hin].
  - destruct (last_delivered (summary e) ds) as [e'|]; [eauto|].
    rewrite String.eqb_refl. eauto.
  - destruct (IH Hin) as [e' ->]. eauto.
Qed.

(** The trace of a run and its dispatches. *)
Lemma run_trace_dispatches (E : env) (t m : nat) (f : option string) :
  exists rest,
    due_events E (fresh t m f)
    = dispatched (trace (snd (run_task E (fresh t m f)))) ++ rest /\
    ((forall e, ~ In (Dispatch e Crashed)
                     (trace (snd (run_task E (fresh t m f))))) ->
     (forall x, fst (get_calendar_events E (fresh t m f)) <> Raise x) ->
     rest = [] /\ fst (run_task E (fresh t m f)) = Ok tt).
Proof.
  destruct (run_task_shape E t m f)
    as [x w' Hexp Hx Hdue Htr Hf
       |w' Hexp Hdue Htr Hf
       |e0 es w' Hexp Hdue Htr Hf
       |e0 es ds d' w' Hexp Hdue Hall Hdisp Hno Hchar Htr Hf
       |e0 es pre e rest w' Hexp Hall Hdue Hno Htr Hf];
    rewrite Htr.
  - exists []. rewrite Hdue. split; [reflexivity|].
    intros _ H. now destruct (H x).
  - exists []. rewrite Hdue. split; [reflexivity | auto].
  - exists []. rewrite Hdue. cbn [dispatched].
    rewrite dispatched_load_effects. split; [reflexivity | auto].
  - exists []. cbn [dispatched].
    rewrite !dispatched_app, dispatched_load_effects.
    cbn [dispatched app]. rewrite !app_nil_r. split; [now rewrite Hdisp | auto].
  - exists rest. cbn [dispatched].
    rewrite !dispatched_app, dispatched_load_effects.
    cbn [dispatched app]. rewrite <- app_assoc. split; [exact Hdue|].
    intros H _. exfalso. apply (H e). right.
    apply in_or_app. right. apply in_or_app. right. now left.
Qed.

Lemma dispatch_in_due (E : env) (t m : nat) (f : option string)
      (e : event) (o : outcome) :
  In (Dispatch e o) (trace (snd (run_task E (fresh t m f)))) ->
  In e (due_events E (fresh t m f)).
Proof.
  intros Hin. destruct (run_trace_dispatches E t m f) as (rest & -> & _).
  apply in_or_app. left. eapply dispatched_In. exact Hin.
Qed.

(** What makes an event due. *)
Lemma due_events_facts (E : env) (w : world) (e : event) :
  In e (due_events E w) ->
  dict_mem (summary e) (loaded_ledger E (ledger_file w)) = false /\
  exists events w1,
    get_calendar_events E w = (Ok events, w1) /\
    In e events /\
    In e (kept E events (snd (load_sent_emails E w1))).
Proof.
  rewrite due_events_unfold.
  destruct (get_calendar_events E w) as [[[|e0 es]|x] w1] eqn:Hget;
    try (intros []).
  intros Hin. apply new_events_of_absent in Hin. destruct Hin as [Hk Habs].
  split; [exact Habs|]. exists (e0 :: es), w1. split; [reflexivity|].
  split; [|exact Hk].
  destruct (upcoming_loop_spec E (e0 :: es) (snd (load_sent_emails E w1)))
    as (_ & _ & H).
  now apply H.
Qed.


(** X7 -- When a call of [send_mail_for_event] raises, the run raises
    at that call, which is its last effect, and the ledger is not
    written: the file is what the loading left (the file as it was, or
    the empty object just created), so the deliveries made earlier in
    the run are not recorded. *)
Theorem raising_dispatch_leaves_ledger_unwritten (E : env) (t m : nat)
        (f : option string) (e : event) :
  In (Dispatch e Crashed) (trace (snd (run_task E (fresh t m f)))) ->
  fst (run_task E (fresh t m f)) = Raise DispatchError /\
  (exists before,
     trace (snd (run_task E (fresh t m f))) = before ++ [Dispatch e Crashed] /\
     forall d, In (WriteLedger d) before -> d = [] /\ f = None) /\
  ledger_file (snd (run_task E (fresh t m f))) = ledger_after_load E f.
Proof.
  destruct (run_task_shape E t m f)
    as [x w' Hexp Hx Hdue Htr Hf
       |w' Hexp Hdue Htr Hf
       |e0 es w' Hexp Hdue Htr Hf
       |e0 es ds d' w' Hexp Hdue Hall Hdisp Hno Hchar Htr Hf
       |e0 es pre e1 rest w' Hexp Hall Hdue Hno Htr Hf];
    rewrite Htr; intros Hin.
  - destruct Hin as [H|[]]; discriminate H.
  - destruct Hin as [H|[]]; discriminate H.
  - destruct Hin as [H|Hin]; [discriminate H|].
    apply In_load_effects in Hin.
    destruct Hin as [H|(_ & [H|H])]; discriminate H.
  - exfalso. destruct Hin as [H|Hin]; [discriminate H|].
    apply in_app_or in Hin. destruct Hin as [Hin|Hin].
    + apply In_load_effects in Hin.
      destruct Hin as [H|(_ & [H|H])]; discriminate H.
    + apply in_app_or in Hin. destruct Hin as [Hin|[H|[]]].
      * now apply (Hno e).
      * discriminate H.
  - assert (He : e = e1).
    { destruct Hin as [H|Hin]; [discriminate H|].
      apply in_app_or in Hin. destruct Hin as [Hin|Hin].
      - apply In_load_effects in Hin.
        destruct Hin as [H|(_ & [H|H])]; discriminate H.
      - apply in_app_or in Hin. destruct Hin as [Hin|[H|[]]].
        + now destruct (Hno e).
        + now injection H. }
    subst e1. split; [reflexivity|]. split; [|exact Hf].
    exists (HttpGet :: load_effects f ++ pre). split.
    + simpl. now rewrite <- app_assoc.
    + intros d [H|Hd]; [discriminate H|].
      apply in_app_or in Hd. destruct Hd as [Hd|Hd].
      * apply In_load_effects in Hd.
        destruct Hd as [H|(Hnone & [H|H])]; try discriminate H.
        injection H as <-. now split.
      * destruct (forallb_is_dispatch_In pre Hall _ Hd) as (e' & o & H).
        discriminate H.
Qed.

(** X8 -- When nothing is due, a ledger file that exists is left as it
    is: the run sends nothing and writes nothing; at most it fetched the
    feed and read the ledger. *)
Theorem nothing_due_leaves_ledger_file (E : env) (t m : nat) (text : string) :
  due_events E (fresh t m (Some text)) = [] ->
  ledger_file (snd (run_task E (fresh t m (Some text)))) = Some text /\
  (forall ef, In ef (trace (snd (run_task E (fresh t m (Some text))))) ->
              ef = HttpGet \/ ef = ReadLedger) /\
  (fst (run_task E (fresh t m (Some text))) = Ok tt \/
   fst (run_task E (fresh t m (Some text))) = Raise FetchError \/
   fst (run_task E (fresh t m (Some text))) = Raise CalendarError).
Proof.
  intros Hnone.
  destruct (run_task_shape E t m (Some text))
    as [x w' Hexp Hx Hdue Htr Hf
       |w' Hexp Hdue Htr Hf
       |e0 es w' Hexp Hdue Htr Hf
       |e0 es ds d' w' Hexp Hdue Hall Hdisp Hno Hchar Htr Hf
       |e0 es pre e1 rest w' Hexp Hall Hdue Hno Htr Hf];
    try rewrite Htr; try rewrite Hf.
  - split; [reflexivity|]. split; [intros ef [<-|[]]; now left|].
    right. destruct Hx as [->| ->]; auto.
  - split; [reflexivity|]. split; [intros ef [<-|[]]; now left | now left].
  - split; [reflexivity|]. split; [|now left].
    simpl. intros ef [<-|[<-|[]]]; auto.
  - contradiction.
  - rewrite Hnone in Hdue. now destruct (dispatched pre).
Qed.

(** X9 -- When the ledger file is absent and the feed expands to an
    instance, the run creates the file right after the failed read,
    holding the empty object, before anything is dispatched; the file
    exists when the run ends, however it ends, and holds the empty
    object unless the run wrote the ledger at its end. *)
Theorem absent_ledger_is_created (E : env) (t m : nat) (e0 : event)
        (es : list event) :
  fst (get_calendar_events E (fresh t m None)) = Ok (e0 :: es) ->
  exists later,
    trace (snd (run_task E (fresh t m None)))
    = [HttpGet; ReadLedger; MakeDirs; WriteLedger []] ++ later /\
    (forall ef, In ef later ->
                (exists e o, ef = Dispatch e o) \/ exists d, ef = WriteLedger d) /\
    ((forall d, ~ In (WriteLedger d) later) ->
     ledger_file (snd (run_task E (fresh t m None))) = Some (json_dump E [])) /\
    exists d, ledger_file (snd (run_task E (fresh t m None)))
              = Some (json_dump E d).
Proof.
  intros Hget.
  destruct (run_task_shape E t m None)
    as [x w' Hexp Hx Hdue Htr Hf
       |w' Hexp Hdue Htr Hf
       |e1 es1 w' Hexp Hdue Htr Hf
       |e1 es1 ds d' w' Hexp Hdue Hall Hdisp Hno Hchar Htr Hf
       |e1 es1 pre e rest w' Hexp Hall Hdue Hno Htr Hf];
    try (rewrite Hget in Hexp; discriminate Hexp);
    rewrite Htr, Hf; simpl.
  - exists []. repeat split; eauto. intros ef [].
  - exists (ds ++ [WriteLedger d']). split; [reflexivity|]. split; [|split].
    + intros ef Hin. apply in_app_or in Hin. destruct Hin as [Hin|[<-|[]]].
      * left. now apply (forallb_is_dispatch_In ds Hall).
      * right. eauto.
    + intros H. exfalso. apply (H d'). apply in_or_app. right. now left.
    + eauto.
  - exists (pre ++ [Dispatch e Crashed]). split; [reflexivity|]. split; [|split].
    + intros ef Hin. apply in_app_or in Hin. destruct Hin as [Hin|[<-|[]]].
      * left. now apply (forallb_is_dispatch_In pre Hall).
      * left. eauto.
    + reflexivity.
    + eauto.
Qed.

Lemma last_delivered_load_effects (k : string) (f : option string) :
  last_delivered k (load_effects f) = None.
Proof. destruct f; reflexivity. Qed.

Lemma last_delivered_run (k : string) (f : option string) (ds : list effect)
      (d : dict) :
  last_delivered k (HttpGet :: load_effects f ++ ds ++ [WriteLedger d])
  = last_delivered k ds.
Proof.
  cbn [last_delivered]. rewrite !last_delivered_app.
  cbn [last_delivered]. rewrite last_delivered_load_effects.
  now destruct (last_delivered k ds).
Qed.

Lemma due_event_has_iso (E : env) (w : world) (e : event) :
  In e (due_events E w) -> exists iso, iso_of e = Some iso.
Proof.
  intros Hin. destruct (due_events_facts E w e Hin)
    as (_ & events & w1 & _ & _ & Hk).
  destruct (upcoming_loop_spec E events (snd (load_sent_emails E w1)))
    as (_ & _ & H).
  destruct (H e Hk) as (_ & dt & Hdt).
  destruct (isoformat_of_fixed _ _ Hdt) as [iso Hiso].
  exists iso. unfold iso_of. now rewrite Hiso.
Qed.

Lemma dispatches_for_none (x : string) (tr : list effect) :
  (forall e r, In (Dispatch e r) tr -> summary e <> x) ->
  dispatches_for x tr = 0%nat.
Proof.
  intros H. unfold dispatches_for, count_summary.
  destruct (filter (fun e => String.eqb (summary e) x) (dispatched tr))
    as [|e l] eqn:Hfilter; [reflexivity|].
  assert (He : In e (filter (fun e => String.eqb (summary e) x) (dispatched tr)))
    by (rewrite Hfilter; now left).
  apply filter_In in He. destruct He as [He Hx].
  apply In_dispatched in He. destruct He as [r Hr].
  apply String.eqb_eq in Hx. now destruct (H e r Hr).
Qed.

(** The ledger a run writes at its end, by what it delivered. *)
Lemma written_ledger_content (E : env) (t m : nat)
        (f : option string) :
  fst (run_task E (fresh t m f)) = Ok tt ->
  due_events E (fresh t m f) <> [] ->
  exists d' before,
    trace (snd (run_task E (fresh t m f))) = before ++ [WriteLedger d'] /\
    ledger_file (snd (run_task E (fresh t m f))) = Some (json_dump E d') /\
    (forall k,
       dict_get k d'
       = match last_delivered k (trace (snd (run_task E (fresh t m f)))) with
         | Some e => iso_of e
         | None => dict_get k (loaded_ledger E f)
         end) /\
    (forall e, In (Dispatch e Sent) (trace (snd (run_task E (fresh t m f)))) ->
               dict_mem (summary e) d' = true) /\
    (forall k, dict_mem k d' = true ->
               dict_mem k (loaded_ledger E f) = true \/
               exists e, In (Dispatch e Sent)
                            (trace (snd (run_task E (fresh t m f)))) /\
                         summary e = k).
Proof.
  intros Hok Hdue0.
  pose proof (fun e => due_event_has_iso E (fresh t m f) e) as Hiso.
  destruct (run_task_shape E t m f)
    as [x w' Hexp Hx Hdue Htr Hf
       |w' Hexp Hdue Htr Hf
       |e0 es w' Hexp Hdue Htr Hf
       |e0 es ds d' w' Hexp Hdue Hall Hdisp Hno Hchar Htr Hf
       |e0 es pre e1 rest w' Hexp Hall Hdue Hno Htr Hf];
    try discriminate Hok; try contradiction.
  assert (Hlast : forall k, last_delivered k (trace w') = last_delivered k ds)
    by (intros k; rewrite Htr; apply last_delivered_run).
  assert (Hsent : forall e, In (Dispatch e Sent) (trace w') ->
                            In (Dispatch e Sent) ds).
  { intros e. rewrite Htr. intros [H|Hin]; [discriminate H|].
    apply in_app_or in Hin. destruct Hin as [Hin|Hin].
    - apply In_load_effects in Hin.
      destruct Hin as [H|(_ & [H|H])]; discriminate H.
    - apply in_app_or in Hin. destruct Hin as [Hin|[H|[]]];
        [exact Hin | discriminate H]. }
  assert (Hback : forall e, In (Dispatch e Sent) ds ->
                            In (Dispatch e Sent) (trace w')).
  { intros e Hin. rewrite Htr. right. apply in_or_app. right.
    apply in_or_app. now left. }
  exists d', (HttpGet :: load_effects f ++ ds).
  split; [rewrite Htr; simpl; now rewrite <- app_assoc|].
  split; [exact Hf|]. split; [|split].
  - intros k. now rewrite Hlast, Hchar.
  - intros e Hin. apply Hsent in Hin.
    destruct (delivered_has_last ds e Hin) as [e' He'].
    unfold dict_mem. rewrite Hchar, He'.
    destruct (last_delivered_In _ _ _ He') as [Hin' _].
    destruct (Hiso e') as [iso ->]; [|reflexivity].
    rewrite <- Hdisp. eapply dispatched_In. exact Hin'.
  - intros k. unfold dict_mem. rewrite Hchar.
    destruct (last_delivered k ds) as [e'|] eqn:He'.
    + intros _. right. destruct (last_delivered_In _ _ _ He') as [Hin' Hk].
      exists e'. split; [now apply Hback | exact Hk].
    + intros H. now left.
Qed.

(** X10 -- When the run returns after dispatching, the ledger it
    writes last is the ledger it loaded, changed at the summaries
    delivered in this run only: each such summary maps to the ISO text
    of the start of the last instance delivered under it, every other
    key keeps the value loaded, and no other key appears; a summary
    whose dispatches all failed is not added. *)
Theorem ledger_written_records_last_delivery (E : env) (t m : nat)
        (f : option string) :
  fst (run_task E (fresh t m f)) = Ok tt ->
  due_events E (fresh t m f) <> [] ->
  exists d' before,
    trace (snd (run_task E (fresh t m f))) = before ++ [WriteLedger d'] /\
    ledger_file (snd (run_task E (fresh t m f))) = Some (json_dump E d') /\
    (forall k,
       dict_get k d'
       = match last_delivered k (trace (snd (run_task E (fresh t m f)))) with
         | Some e => iso_of e
         | None => dict_get k (loaded_ledger E f)
         end) /\
    (forall e, In (Dispatch e Sent) (trace (snd (run_task E (fresh t m f)))) ->
               dict_mem (summary e) d' = true) /\
    (forall k, dict_mem k d' = true ->
               dict_mem k (loaded_ledger E f) = true \/
               exists e, In (Dispatch e Sent)
                            (trace (snd (run_task E (fresh t m f)))) /\
                         summary e = k).
Proof.
  apply written_ledger_content.
Qed.




Lemma get_calendar_events_sound (E : env) (w w' : world)
      (events : list event) (e : event) :
  get_calendar_events E w = (Ok events, w') ->
  In e events ->
  exists dt k,
    fix_datetime (dtstart e) = Ok dt /\
    (ticks w <= k < ticks w')%nat /\ (clock E k <= timestamp dt)%Z.
Proof.
  unfold get_calendar_events, bind, perform, now. simpl.
  destruct (requests_get E) as [|content]; [discriminate|].
  destruct (from_ical E content) as [cal|]; [|discriminate].
  destruct (between E cal _ _) as [cs|]; [|discriminate].
  destruct (expand_loop_spec E cs (tick (tick (log_effect HttpGet w))))
    as (evs & w1 & Hrun & _ & Hsound & _).
  rewrite Hrun. intros [= <- <-] Hin.
  destruct (Hsound e Hin) as (c & dt & k & _ & _ & Hfix & Hk & Hle).
  simpl in Hk. exists dt, k. repeat split; auto; lia.
Qed.


(** X13 -- An identity delivered in one run is not dispatched in the
    next: when a run returns and the next run decodes the ledger that
    run wrote, the next run calls [send_mail_for_event] for no instance
    whose summary was delivered, whatever its feed, its clock and its
    mail transport are. *)
Theorem delivered_identity_is_suppressed_next_run (E1 E2 : env) (t m : nat)
        (f : option string) (e : event) :
  fst (run_task E1 (fresh t m f)) = Ok tt ->
  In (Dispatch e Sent) (trace (snd (run_task E1 (fresh t m f)))) ->
  (forall d, In (WriteLedger d) (trace (snd (run_task E1 (fresh t m f)))) ->
             json_load E2 (json_dump E1 d) = Some d) ->
  dispatches_for (summary e)
    (trace (snd (run_task E2 (next_run (snd (run_task E1 (fresh t m f)))))))
  = 0%nat /\
  forall e' o,
    In (Dispatch e' o)
       (trace (snd (run_task E2 (next_run (snd (run_task E1 (fresh t m f))))))) ->
    summary e' <> summary e.
Proof.
  intros Hok Hsent Hround.
  assert (Hdue : due_events E1 (fresh t m f) <> []).
  { apply dispatch_in_due in Hsent.
    destruct (due_events E1 (fresh t m f)); [destruct Hsent | discriminate]. }
  destruct (written_ledger_content E1 t m f Hok Hdue)
    as (d' & before & Htr & Hf & _ & Hmem & _).
  assert (Hload : json_load E2 (json_dump E1 d') = Some d').
  { apply Hround. rewrite Htr. apply in_or_app. right. now left. }
  assert (Hall : forall e' o,
             In (Dispatch e' o)
                (trace (snd (run_task E2
                               (next_run (snd (run_task E1 (fresh t m f))))))) ->
             summary e' <> summary e).
  { intros e' o Hin. unfold next_run in Hin. apply dispatch_in_due in Hin.
    apply due_events_facts in Hin. destruct Hin as [Habs _].
    cbn [ledger_file fresh] in Habs. rewrite Hf in Habs.
    cbn [loaded_ledger] in Habs. rewrite Hload in Habs.
    intros Heq. rewrite Heq, (Hmem e Hsent) in Habs. discriminate. }
  split; [now apply dispatches_for_none | exact Hall].
Qed.

(** ** Two runs *)

(** The mail transport plays no part before the dispatch loop. *)
Lemma expand_loop_with_smtp (E : env) (s : nat -> event -> outcome)
      (cs : list component) :
  forall acc w, expand_loop (with_smtp E s) cs acc w = expand_loop E cs acc w.
Proof.
  induction cs as [|c cs IH]; intros acc w; [reflexivity|].
  simpl. change (vevent_instance (with_smtp E s) c w)
           with (vevent_instance E c w).
  destruct (vevent_instance E c w) as [[[e|]|x] w1]; apply IH.
Qed.

Lemma upcoming_loop_with_smtp (E : env) (s : nat -> event -> outcome)
      (events : list event) :
  forall acc w,
    upcoming_loop (with_smtp E s) events acc w = upcoming_loop E events acc w.
Proof.
  induction events as [|e events IH]; intros acc w; [reflexivity|].
  simpl. change (within_next_hours (with_smtp E s) e w)
           with (within_next_hours E e w).
  destruct (within_next_hours E e w) as [[[|]|x] w1]; apply IH.
Qed.

Lemma due_events_with_smtp (E : env) (s : nat -> event -> outcome) (w : world) :
  due_events (with_smtp E s) w = due_events E w.
Proof.
  unfold due_events.
  assert (Hget : get_calendar_events (with_smtp E s) w = get_calendar_events E w).
  { unfold get_calendar_events, bind, perform, now. simpl.
    destruct (requests_get E) as [|content]; [reflexivity|].
    destruct (from_ical E content) as [cal|]; [|reflexivity].
    destruct (between E cal _ _) as [cs|]; [|reflexivity].
    apply expand_loop_with_smtp. }
  rewrite Hget.
  destruct (get_calendar_events E w) as [[[|e es]|x] w1]; try reflexivity.
  all: change (load_sent_emails (with_smtp E s) w1)
         with (load_sent_emails E w1);
    destruct (load_sent_emails E w1) as [[d|x] w2]; [|reflexivity];
    now rewrite upcoming_loop_with_smtp.
Qed.

(** With a clock that stands still, the loops give what they give
    whenever they are run. *)
Lemma vevent_instance_still (E : env) (t0 : Z) (c : component) (w v : world) :
  (forall k, clock E k = t0) ->
  fst (vevent_instance E c w) = fst (vevent_instance E c v).
Proof.
  intros Hclock. unfold vevent_instance, bind, lift, now, ret.
  destruct (String.eqb (name c) "VEVENT"); [|reflexivity].
  destruct (dt_of (get_dtstart c)) as [s|x]; [|reflexivity].
  destruct (fix_datetime s) as [dt|x]; [|reflexivity].
  rewrite !Hclock.
  destruct (timestamp dt <? t0)%Z; [reflexivity|].
  destruct (dt_of (get_dtend c)); reflexivity.
Qed.

Lemma expand_loop_still (E : env) (t0 : Z) (cs : list component) :
  (forall k, clock E k = t0) ->
  forall acc w v,
    fst (expand_loop E cs acc w) = fst (expand_loop E cs acc v).
Proof.
  intros Hclock. induction cs as [|c cs IH]; intros acc w v; [reflexivity|].
  simpl. pose proof (vevent_instance_still E t0 c w v Hclock) as Hc.
  destruct (vevent_instance E c w) as [r1 w1].
  destruct (vevent_instance E c v) as [r2 v1].
  simpl in Hc. subst r2. destruct r1 as [[e|]|x]; apply IH.
Qed.

Lemma upcoming_loop_still (E : env) (t0 : Z) (events : list event) :
  (forall k, clock E k = t0) ->
  forall acc w v,
    fst (upcoming_loop E events acc w) = fst (upcoming_loop E events acc v).
Proof.
  intros Hclock. induction events as [|e events IH]; intros acc w v;
    [reflexivity|].
  simpl.
  assert (Hc : fst (within_next_hours E e w) = fst (within_next_hours E e v)).
  { unfold within_next_hours, bind, lift, now, ret.
    destruct (fix_datetime (dtstart e)); [|reflexivity].
    now rewrite !Hclock. }
  destruct (within_next_hours E e w) as [r1 w1].
  destruct (within_next_hours E e v) as [r2 v1].
  simpl in Hc. subst r2. destruct r1 as [[|]|x]; apply IH.
Qed.

Lemma due_events_still (E : env) (t0 : Z) (w v : world) :
  (forall k, clock E k = t0) ->
  loaded_ledger E (ledger_file w) = loaded_ledger E (ledger_file v) ->
  due_events E w = due_events E v.
Proof.
  intros Hclock Hledger. rewrite !due_events_unfold.
  assert (Hget : fst (get_calendar_events E w) = fst (get_calendar_events E v)).
  { unfold get_calendar_events, bind, perform, now. simpl.
    destruct (requests_get E) as [|content]; [reflexivity|].
    destruct (from_ical E content) as [cal|]; [|reflexivity].
    rewrite !Hclock.
    destruct (between E cal t0 (t0 + days 30)%Z) as [cs|]; [|reflexivity].
    now apply (expand_loop_still E t0). }
  destruct (get_calendar_events E w) as [r1 w1].
  destruct (get_calendar_events E v) as [r2 v1].
  simpl in Hget. subst r2. destruct r1 as [[|e es]|x]; try reflexivity.
  rewrite Hledger. f_equal. unfold kept.
  pose proof (upcoming_loop_still E t0 (e :: es) Hclock []
                (snd (load_sent_emails E w1)) (snd (load_sent_emails E v1)))
    as Hup.
  destruct (upcoming_loop E (e :: es) [] (snd (load_sent_emails E w1)))
    as [r3 w3].
  destruct (upcoming_loop E (e :: es) [] (snd (load_sent_emails E v1)))
    as [r4 v3].
  simpl in Hup. now subst r4.
Qed.

(** The ledger file a run leaves when every send fails. *)
Lemma all_failed_run_ledger (E : env) (t m : nat) (f : option string) :
  (forall n e, smtp E n e = Failed) ->
  ledger_file (snd (run_task E (fresh t m f))) = f \/
  ledger_file (snd (run_task E (fresh t m f))) = ledger_after_load E f \/
  ledger_file (snd (run_task E (fresh t m f)))
  = Some (json_dump E (loaded_ledger E f)).
Proof.
  intros Hfail. rewrite run_task_unfold.
  change (ledger_file (fresh t m f)) with f.
  destruct (get_calendar_events E (fresh t m f))
    as [[[|e0 es]|x] w1] eqn:Hget;
    destruct (get_calendar_events_frame E _ _ _ Hget) as (Hf & _);
    simpl in Hf; try (now left).
  rewrite notify_new_events_unfold.
  destruct (load_sent_emails_world E w1) as (_ & Hf2 & _). rewrite Hf in Hf2.
  destruct (upcoming_loop_spec E (e0 :: es) (snd (load_sent_emails E w1)))
    as (_ & (Hf3 & _) & _).
  destruct (new_events_of (kept E (e0 :: es) (snd (load_sent_emails E w1)))
              (loaded_ledger E f)) as [|n ns].
  - right. left. cbn [snd]. congruence.
  - destruct (notify_loop_all_failed E (n :: ns) (loaded_ledger E f)
                (after_kept E (e0 :: es) (snd (load_sent_emails E w1))))
      as (w4 & Hloop & _ & _).
    { intros k e _. apply Hfail. }
    rewrite Hloop. right. right. reflexivity.
Qed.

(** X14 -- A send that fails is attempted again: after a run in which
    every send fails, the next run on the same feed, with the clock
    where it was and whatever the mail transport does then, has the
    same due set, provided the ledger loaded decodes again from its
    serialization. *)
Theorem failed_sends_are_due_again (E : env) (s : nat -> event -> outcome)
        (t m : nat) (f : option string) (t0 : Z) :
  (forall k, clock E k = t0) ->
  (forall n e, smtp E n e = Failed) ->
  json_load E (json_dump E (loaded_ledger E f)) = Some (loaded_ledger E f) ->
  due_events (with_smtp E s) (next_run (snd (run_task E (fresh t m f))))
  = due_events E (fresh t m f).
Proof.
  intros Hclock Hfail Hround.
  rewrite due_events_with_smtp.
  apply (due_events_still E t0); [exact Hclock|].
  unfold next_run. cbn [ledger_file fresh].
  destruct (all_failed_run_ledger E t m f Hfail) as [-> | [-> | ->]].
  - reflexivity.
  - destruct f as [text|]; [reflexivity|].
    simpl. simpl in Hround. now rewrite Hround.
  - simpl. now rewrite Hround.
Qed.

(** ** The dispatcher and the expanded instances *)

Lemma split_comma_nonempty (s : string) : split_comma s <> [].
Proof.
  destruct s as [|c rest]; simpl; [discriminate|].
  destruct (Ascii.eqb c ","); [discriminate|].
  destruct (split_comma rest); discriminate.
Qed.

Lemma concat_cons_nonempty (sep x : string) (l : list string) :
  l <> [] ->
  String.concat sep (x :: l) = (x ++ sep ++ String.concat sep l)%string.
Proof.
  destruct l; [contradiction | reflexivity].
Qed.

Lemma split_comma_join (s : string) :
  String.concat "," (split_comma s) = s.
Proof.
  induction s as [|c rest IH]; [reflexivity|].
  simpl split_comma. destruct (Ascii.eqb c ",") eqn:Hc.
  - apply Ascii.eqb_eq in Hc. subst c.
    rewrite concat_cons_nonempty by apply split_comma_nonempty.
    now rewrite IH.
  - destruct (split_comma rest) as [|piece pieces] eqn:Hsplit.
    + now destruct (split_comma_nonempty rest).
    + rewrite <- IH. destruct pieces as [|p ps]; reflexivity.
Qed.

Lemma split_comma_length (s : string) :
  List.length (split_comma s) = S (comma_count s).
Proof.
  induction s as [|c rest IH]; [reflexivity|].
  simpl. destruct (Ascii.eqb c ","); simpl.
  - now rewrite IH.
  - destruct (split_comma rest) as [|piece pieces]; simpl in *; lia.
Qed.

Lemma split_comma_pieces (s : string) :
  forall piece, In piece (split_comma s) -> comma_count piece = 0%nat.
Proof.
  induction s as [|c rest IH]; simpl.
  - intros piece [<-|[]]. reflexivity.
  - destruct (Ascii.eqb c ",") eqn:Hc.
    + intros piece [<-|Hin]; [reflexivity | now apply IH].
    + destruct (split_comma rest) as [|p ps].
      * intros piece [<-|[]]. simpl. now rewrite Hc.
      * intros piece [<-|Hin].
        -- simpl. rewrite Hc. apply IH. now left.
        -- apply IH. now right.
Qed.

(** X15 -- The recipients of a mail are the pieces of EMAIL_TO between
    its commas: in a process that passed [check_config] there is at
    least one, there is one more than EMAIL_TO has commas, none holds a
    comma, and joined by commas they give EMAIL_TO back, so that no
    character is trimmed or lost (a blank after a comma stays in the
    address). *)
Theorem recipients_are_the_comma_pieces (int : string -> option Z)
        (vars : environ) (cfg : config) :
  CONFIG int vars = Some cfg ->
  fst (check_config vars) = true ->
  exists addresses l,
    EMAIL_TO cfg = Some addresses /\
    recipients cfg = Some l /\
    l <> [] /\
    String.concat "," l = addresses /\
    List.length l = S (comma_count addresses) /\
    forall piece, In piece l -> comma_count piece = 0%nat.
Proof.
  intros Hcfg Hc.
  pose proof (proj1 (check_config_true_iff vars) Hc) as Hall.
  destruct (Hall "EMAIL_TO"%string) as (c & s & Hto);
    [unfold required_vars; simpl; tauto|].
  assert (Hfield : EMAIL_TO cfg = vars "EMAIL_TO"%string).
  { unfold CONFIG in Hcfg.
    destruct (match vars "SMTP_PORT"%string with
              | Some text => int text
              | None => Some 587%Z
              end); [|discriminate].
    now injection Hcfg as <-. }
  exists (String c s), (split_comma (String c s)).
  unfold recipients. rewrite Hfield, Hto.
  split; [reflexivity|]. split; [reflexivity|].
  split; [apply split_comma_nonempty|].
  split; [apply split_comma_join|].
  split; [apply split_comma_length | apply split_comma_pieces].
Qed.

(** X16 -- For every instance the expander returns, the start time the
    dispatcher computes at line 154 is defined and is the normalized
    start that the expander and the window loop compared with the
    clock: that line cannot raise for an expanded instance.  The end
    time of line 155 is defined exactly when DTEND holds a date or a
    datetime, which the expander does not check. *)
Theorem dispatcher_start_is_the_normalized_start (E : env) (w w' : world)
        (events : list event) (e : event) :
  get_calendar_events E w = (Ok events, w') ->
  In e events ->
  (exists dt, start_time e = Some dt /\ fix_datetime (dtstart e) = Ok dt) /\
  (end_time e = None <-> dtend e = TOther).
Proof.
  intros Hget Hin.
  destruct (get_calendar_events_sound E w w' events e Hget Hin)
    as (dt & _ & Hfix & _).
  split.
  - exists dt. split; [|exact Hfix].
    unfold start_time. destruct (dtstart e); simpl in *;
      try discriminate; congruence.
  - unfold end_time. destruct (dtend e); simpl; split;
      try discriminate; reflexivity.
Qed.


(** ** More concrete runs *)

Section MoreRuns.

Import Examples MoreExamples.

Local Open Scope string_scope.

Lemma check_config_accepts_exactly_complete_witness :
  fst (check_config vars_incomplete) = false /\
  exists missing,
    missing <> [] /\
    missing = filter (unset vars_incomplete) required_vars /\
    snd (check_config vars_incomplete)
    = ["Missing required environment variables: "
       ++ String.concat ", " missing] /\
    forall v, In v missing <->
              In v required_vars /\
              (vars_incomplete v = None \/ vars_incomplete v = Some EmptyString).
Proof.
  split; [reflexivity|].
  apply (proj2 (proj2 (check_config_accepts_exactly_complete vars_incomplete))).
  reflexivity.
Defined.

Example check_config_message :
  check_config vars_incomplete
  = (false,
     ["Missing required environment variables: SMTP_HOST, SMTP_PORT, EMAIL_TO"]).
Proof. reflexivity. Qed.

Lemma config_port_default_is_never_used_witness :
  CONFIG int_of_digits vars_complete = Some config_complete /\
  fst (check_config vars_complete) = true /\
  (exists c s, vars_complete "SMTP_PORT" = Some (String c s) /\
               int_of_digits (String c s) = Some (SMTP_PORT config_complete)) /\
  (exists c s, CALENDAR_URL config_complete = Some (String c s)) /\
  (exists c s, SMTP_HOST config_complete = Some (String c s)) /\
  (exists c s, SMTP_USER config_complete = Some (String c s)) /\
  (exists c s, SMTP_PASSWORD config_complete = Some (String c s)) /\
  (exists c s, EMAIL_FROM config_complete = Some (String c s)) /\
  (exists c s, EMAIL_TO config_complete = Some (String c s)).
Proof.
  split; [reflexivity|]. split; [reflexivity|].
  apply (proj2 (proj2 (config_port_default_is_never_used int_of_digits
                         vars_complete)) config_complete);
    reflexivity.
Defined.

Lemma main_runs_only_when_configured_witness :
  (forall v, In v required_vars ->
             exists c s, vars_complete v = Some (String c s)) /\
  (exists port, forall text, vars_complete "SMTP_PORT" = Some text ->
                             int_of_digits text = Some port) /\
  requests_get env_offline = FetchRaises /\
  main int_of_digits vars_complete env_offline (fresh 0 0 None)
  = Died FetchError (log_effect HttpGet (fresh 0 0 None)) /\
  (main int_of_digits vars_incomplete env_offline (fresh 0 0 None)
   = ImportFailed (fresh 0 0 None) \/
   main int_of_digits vars_incomplete env_offline (fresh 0 0 None)
   = Exited 1 (snd (check_config vars_incomplete)) (fresh 0 0 None)).
Proof.
  assert (Hall : forall v, In v required_vars ->
                           exists c s, vars_complete v = Some (String c s)).
  { intros v Hv. unfold required_vars in Hv. simpl in Hv.
    repeat (destruct Hv as [<-|Hv]; [do 2 eexists; reflexivity|]).
    destruct Hv. }
  assert (Hport : exists port, forall text,
               vars_complete "SMTP_PORT" = Some text ->
               int_of_digits text = Some port).
  { exists 2525%Z. intros text [= <-]. reflexivity. }
  split; [exact Hall|]. split; [exact Hport|]. split; [reflexivity|].
  split.
  - apply (proj2 (main_runs_only_when_configured int_of_digits vars_complete
                    env_offline (fresh 0 0 None)) Hall Hport).
    reflexivity.
  - apply (proj1 (main_runs_only_when_configured int_of_digits vars_incomplete
                    env_offline (fresh 0 0 None))).
    exists "EMAIL_TO". split; [unfold required_vars; simpl; tauto | now left].
Defined.

Lemma unparsable_feed_aborts_run_witness :
  requests_get env_bad_feed = FetchBody "<html>" /\
  from_ical env_bad_feed "<html>" = None /\
  fst (run_task env_bad_feed (fresh 0 0 (Some "{}"))) = Raise CalendarError /\
  ledger_file (snd (run_task env_bad_feed (fresh 0 0 (Some "{}")))) = Some "{}" /\
  trace (snd (run_task env_bad_feed (fresh 0 0 (Some "{}")))) = [HttpGet] /\
  mails (snd (run_task env_bad_feed (fresh 0 0 (Some "{}")))) = 0%nat.
Proof.
  split; [reflexivity|]. split; [reflexivity|].
  apply (unparsable_feed_aborts_run env_bad_feed 0 0 (Some "{}") "<html>");
    [reflexivity | now left].
Defined.

Example vtodo_is_ignored :
  expanded (env_of t0 [vtodo; standup_1h; vtodo] Sent)
           [vtodo; standup_1h; vtodo] (fresh 0 0 None)
  = [event_of standup_1h].
Proof. reflexivity. Qed.


Lemma raising_dispatch_leaves_ledger_unwritten_witness :
  In (Dispatch (event_of review_23h) Crashed) (trace (snd run_second_raises)) /\
  In (Dispatch (event_of standup_1h) Sent) (trace (snd run_second_raises)) /\
  fst run_second_raises = Raise DispatchError /\
  (exists before,
     trace (snd run_second_raises)
     = (before ++ [Dispatch (event_of review_23h) Crashed])%list /\
     forall d, In (WriteLedger d) before -> d = [] /\ Some "{}" = None) /\
  ledger_file (snd run_second_raises)
  = ledger_after_load env_second_raises (Some "{}").
Proof.
  assert (Hin : In (Dispatch (event_of review_23h) Crashed)
                   (trace (snd run_second_raises)))
    by (right; right; right; left; reflexivity).
  split; [exact Hin|].
  split; [right; right; left; reflexivity|].
  apply (raising_dispatch_leaves_ledger_unwritten env_second_raises 0 0
           (Some "{}") (event_of review_23h) Hin).
Defined.

Lemma nothing_due_leaves_ledger_file_witness :
  due_events env_two_standups (fresh 0 0 (Some known_standup)) = [] /\
  ledger_file (snd run_known_standup) = Some known_standup /\
  (forall ef, In ef (trace (snd run_known_standup)) ->
              ef = HttpGet \/ ef = ReadLedger) /\
  (fst run_known_standup = Ok tt \/
   fst run_known_standup = Raise FetchError \/
   fst run_known_standup = Raise CalendarError).
Proof.
  split; [reflexivity|].
  apply (nothing_due_leaves_ledger_file env_two_standups 0 0 known_standup).
  reflexivity.
Defined.

Lemma absent_ledger_is_created_witness :
  fst (get_calendar_events env_mail_down (fresh 0 0 None))
  = Ok [event_of standup_1h] /\
  exists later,
    trace (snd run_without_ledger)
    = ([HttpGet; ReadLedger; MakeDirs; WriteLedger []] ++ later)%list /\
    (forall ef, In ef later ->
                (exists e o, ef = Dispatch e o) \/ exists d, ef = WriteLedger d) /\
    ((forall d, ~ In (WriteLedger d) later) ->
     ledger_file (snd run_without_ledger) = Some (json_dump env_mail_down [])) /\
    exists d, ledger_file (snd run_without_ledger)
              = Some (json_dump env_mail_down d).
Proof.
  split; [reflexivity|].
  apply (absent_ledger_is_created env_mail_down 0 0 (event_of standup_1h) []).
  reflexivity.
Defined.

Example run_without_ledger_trace :
  run_without_ledger
  = (Ok tt,
     {| ticks := 4; mails := 1; ledger_file := Some "{}";
        trace := [HttpGet; ReadLedger; MakeDirs; WriteLedger [];
                  Dispatch (event_of standup_1h) Failed; WriteLedger []] |}).
Proof. reflexivity. Qed.

Lemma ledger_written_records_last_delivery_witness :
  fst run_only_standup = Ok tt /\
  due_events env_only_standup (fresh 0 0 (Some "{}")) <> [] /\
  exists d' before,
    trace (snd run_only_standup) = (before ++ [WriteLedger d'])%list /\
    ledger_file (snd run_only_standup) = Some (json_dump env_only_standup d') /\
    (forall k,
       dict_get k d'
       = match last_delivered k (trace (snd run_only_standup)) with
         | Some e => iso_of e
         | None => dict_get k (loaded_ledger env_only_standup (Some "{}"))
         end) /\
    (forall e, In (Dispatch e Sent) (trace (snd run_only_standup)) ->
               dict_mem (summary e) d' = true) /\
    (forall k, dict_mem k d' = true ->
               dict_mem k (loaded_ledger env_only_standup (Some "{}")) = true \/
               exists e, In (Dispatch e Sent) (trace (snd run_only_standup)) /\
                         summary e = k).
Proof.
  assert (Hdue : due_events env_only_standup (fresh 0 0 (Some "{}")) <> [])
    by (vm_compute; discriminate).
  split; [reflexivity|]. split; [exact Hdue|].
  apply (ledger_written_records_last_delivery env_only_standup 0 0 (Some "{}")
           eq_refl Hdue).
Defined.

Example run_only_standup_ledger :
  ledger_file (snd run_only_standup)
  = Some (ledger_with "Standup" "2025-01-01T03:00:00") /\
  dispatched (trace (snd run_only_standup))
  = [event_of standup_1h; event_of review_23h; event_of standup_3h].
Proof. split; reflexivity. Qed.



Lemma delivered_identity_is_suppressed_next_run_witness :
  fst run_two_standups = Ok tt /\
  In (Dispatch (event_of standup_1h) Sent) (trace (snd run_two_standups)) /\
  (forall d, In (WriteLedger d) (trace (snd run_two_standups)) ->
             json_load env_two_standups (json_dump env_two_standups d) = Some d) /\
  dispatches_for (summary (event_of standup_1h))
    (trace (snd (run_task env_two_standups (next_run (snd run_two_standups)))))
  = 0%nat /\
  forall e' o,
    In (Dispatch e' o)
       (trace (snd (run_task env_two_standups
                      (next_run (snd run_two_standups))))) ->
    summary e' <> summary (event_of standup_1h).
Proof.
  assert (Hin : In (Dispatch (event_of standup_1h) Sent)
                   (trace (snd run_two_standups)))
    by (right; right; left; reflexivity).
  assert (Hround : forall d,
             In (WriteLedger d) (trace (snd run_two_standups)) ->
             json_load env_two_standups (json_dump env_two_standups d) = Some d).
  { intros d H. vm_compute in H.
    repeat (destruct H as [H|H]; [try discriminate H|]); [|destruct H].
    injection H as <-. reflexivity. }
  split; [reflexivity|]. split; [exact Hin|]. split; [exact Hround|].
  apply (delivered_identity_is_suppressed_next_run env_two_standups
           env_two_standups 0 0 (Some "{}") (event_of standup_1h)
           eq_refl Hin Hround).
Defined.

Example next_run_sends_nothing :
  run_task env_two_standups (next_run (snd run_two_standups))
  = (Ok tt,
     {| ticks := 12; mails := 2;
        ledger_file := Some (ledger_with "Standup" "2025-01-01T03:00:00");
        trace := [HttpGet; ReadLedger] |}).
Proof. reflexivity. Qed.

Lemma failed_sends_are_due_again_witness :
  (forall k, clock env_mail_down k = t0) /\
  (forall n e, smtp env_mail_down n e = Failed) /\
  json_load env_mail_down
    (json_dump env_mail_down (loaded_ledger env_mail_down (Some "{}")))
  = Some (loaded_ledger env_mail_down (Some "{}")) /\
  due_events (with_smtp env_mail_down (fun _ _ => Sent))
             (next_run (snd run_mail_down))
  = due_events env_mail_down (fresh 0 0 (Some "{}")).
Proof.
  assert (Hclock : forall k, clock env_mail_down k = t0) by reflexivity.
  assert (Hfail : forall n e, smtp env_mail_down n e = Failed) by reflexivity.
  split; [exact Hclock|]. split; [exact Hfail|]. split; [reflexivity|].
  apply (failed_sends_are_due_again env_mail_down (fun _ _ => Sent) 0 0
           (Some "{}") t0 Hclock Hfail).
  reflexivity.
Defined.

Lemma recipients_are_the_comma_pieces_witness :
  CONFIG int_of_digits vars_complete = Some config_complete /\
  fst (check_config vars_complete) = true /\
  exists addresses l,
    EMAIL_TO config_complete = Some addresses /\
    recipients config_complete = Some l /\
    l <> [] /\
    String.concat "," l = addresses /\
    List.length l = S (comma_count addresses) /\
    forall piece, In piece l -> comma_count piece = 0%nat.
Proof.
  split; [reflexivity|]. split; [reflexivity|].
  apply (recipients_are_the_comma_pieces int_of_digits vars_complete
           config_complete); reflexivity.
Defined.

Example two_recipients :
  recipients config_complete = Some ["a@example.org"; "b@example.org"] /\
  split_comma "a@example.org, b@example.org,"
  = ["a@example.org"; " b@example.org"; EmptyString].
Proof. split; reflexivity. Qed.

Lemma dispatcher_start_is_the_normalized_start_witness :
  get_calendar_events env_two_standups (fresh 0 0 None)
  = (Ok [event_of standup_1h; event_of standup_3h], expanded_world 4 None) /\
  In (event_of standup_3h) [event_of standup_1h; event_of standup_3h] /\
  (exists dt, start_time (event_of standup_3h) = Some dt /\
              fix_datetime (dtstart (event_of standup_3h)) = Ok dt) /\
  (end_time (event_of standup_3h) = None <->
   dtend (event_of standup_3h) = TOther).
Proof.
  assert (Hin : In (event_of standup_3h)
                   [event_of standup_1h; event_of standup_3h])
    by (right; now left).
  split; [reflexivity|]. split; [exact Hin|].
  apply (dispatcher_start_is_the_normalized_start env_two_standups
           (fresh 0 0 None) (expanded_world 4 None)
           [event_of standup_1h; event_of standup_3h] (event_of standup_3h)
           eq_refl Hin).
Defined.


End MoreRuns.
